(** * NeRF_CT ray loader: [utils/dataload.py]

    A shallow embedding of [load_data], [rays_dataset] and
    [RayGenerator] (construction and [select]), and the properties of
    the ray pool and of the batch sampler that follow from the code.

    Conventions of the embedding.
    - Floating-point numbers are an abstract carrier [F] with the
      operations the code applies to them ([FloatOps]); no algebraic law
      is assumed of them.
    - A 2-D array is the list of its rows, a 3-D array the list of its
      matrices.  Wherever the code builds such an array its outer
      dimensions are positive, so the nested list determines the shape.
    - Python exceptions are the constructors of [exn]; a computation that
      may raise returns a [result].
    - The process-wide torch generator is threaded explicitly through
      [select] ([RandomGen]).
    - The memory a tensor of [select] may take is a parameter
      ([Allocator]); the sizes torch refuses on every machine are
      refused by [alloc] itself.

    The file gives the embedding, then the vocabulary of the statements
    and small concrete datasets, then the lemmas and the theorems. *)

From stdpp Require Import gmap strings list fin_maps.
From Stdlib Require Import ZArith QArith.

Local Open Scope string_scope.
Local Open Scope Z_scope.
Local Open Scope list_scope.
Local Open Scope nat_scope.

(** ** Exceptions *)

Inductive exn : Type :=
  | IndexError      (* list or tensor index out of range *)
  | KeyError        (* missing dict key *)
  | NameError       (* local variable read before assignment *)
  | ValueError      (* numpy: inhomogeneous nested list *)
  | RuntimeError    (* torch shape, argument and allocation checks *)
  | TypeError       (* argument that is no 64-bit integer *)
  | CvError.        (* cv2.cvtColor applied to the None of a failed imread *)

Inductive result (A : Type) : Type :=
  | Ok (a : A)
  | Raise (e : exn).
Arguments Ok {A} a.
Arguments Raise {A} e.

#[global] Instance result_ret : MRet result := fun A a => Ok a.
#[global] Instance result_bind : MBind result := fun A B k m =>
  match m with
  | Ok a => k a
  | Raise e => Raise e
  end.

Definition is_Raise {A} (r : result A) : Prop := ∃ e, r = Raise e.

(** [l[i]] of Python for an index that is never negative. *)
Definition getitem {A} (l : list A) (i : nat) : result A :=
  match l !! i with
  | Some a => Ok a
  | None => Raise IndexError
  end.

(** [d[k]] of a Python dict. *)
Definition dict_get {A} (d : gmap string A) (k : string) : result A :=
  match d !! k with
  | Some a => Ok a
  | None => Raise KeyError
  end.

(** [for x in xs] with the loop's variables as the state [St]. *)
Fixpoint for_each {St A : Type} (body : St → A → result St) (xs : list A) (s : St)
  : result St :=
  match xs with
  | [] => Ok s
  | x :: xs' => s' ← body s x; for_each body xs' s'
  end.

(** [for i in range(n)] *)
Definition for_range {St : Type} (body : St → nat → result St) (n : nat) (s : St)
  : result St :=
  for_each body (seq 0 n) s.

(** The same for a list comprehension or a loop over a list. *)
Fixpoint mapM_result {A B : Type} (f : A → result B) (l : list A) : result (list B) :=
  match l with
  | [] => Ok []
  | a :: l' => b ← f a; bs ← mapM_result f l'; Ok (b :: bs)
  end.

(** ** Floating-point interface *)

Class FloatOps (F : Type) := {
  fzero : F;
  fadd : F → F → F;
  fsub : F → F → F;
  fmul : F → F → F;
  fdiv : F → F → F;
  fneg : F → F;
  ftan : F → F;            (* np.tan *)
  of_int : Z → F;          (* int to float conversion *)
  f32 : F → F;             (* rounding of [.float()] to single precision *)
}.

(** ** The generator behind [torch.randint] *)

Class RandomGen (G : Type) := {
  next_raw : G → Z * G;    (* one raw draw and the advanced state *)
}.

(** ** The tensor allocator *)

(** [max_bytes]: the largest block, in bytes, the allocator grants. *)
Class Allocator := {
  max_bytes : N;
}.

(** The largest number of bytes a storage size can express. *)
Definition storage_max : Z := (2 ^ 63 - 1)%Z.

(** Allocation of a tensor of [numel] elements of [itemsize] bytes: the
    size computation must not overflow, and the allocator must grant the
    block; both failures are a RuntimeError. *)
Definition alloc `{Allocator} (numel itemsize : Z) : result unit :=
  if bool_decide (storage_max < numel * itemsize)%Z then Raise RuntimeError
  else if bool_decide (Z.of_N max_bytes < numel * itemsize)%Z then Raise RuntimeError
  else Ok tt.

Section Dataload.

Context {F : Type} `{FloatOps F}.
Context {G : Type} `{RandomGen G}.
Context `{Allocator}.

(** ** Data *)

Definition tensor2 : Type := list (list F).
Definition tensor3 : Type := list (list (list F)).

(** What [cv2.imread] decodes: [rows] x [cols] pixels of (B, G, R) bytes. *)
Record Mat : Type := {
  mat_rows : nat;
  mat_cols : nat;
  mat_data : list (Z * Z * Z);
}.

(** An H x W x 3 float image; [shape_H], [shape_W] are [img.shape[:2]]. *)
Record Image : Type := {
  shape_H : nat;
  shape_W : nat;
  img_data : list (F * F * F);
}.

(** One entry of ['frames'] in a transforms file. *)
Record Frame : Type := {
  file_path : string;
  transform_matrix : list (list F);
}.

(** A parsed [transforms_*.json]. *)
Record Transforms : Type := {
  camera_angle_x : F;
  frames : list Frame;
}.

(** The directory [path] as [load_data] sees it: per path list (already
    globbed and naturally sorted) what [cv2.imread] returns for each path
    ([None] for a file it cannot decode), and the three parsed files. *)
Record Dataset : Type := {
  train_img_paths : list (option Mat);
  val_img_paths : list (option Mat);
  test_img_paths : list (option Mat);
  test_depth_paths : list (option Mat);
  test_normal_paths : list (option Mat);
  train_transform : Transforms;
  test_transform : Transforms;
  val_transform : Transforms;
}.

(** A sample dict; [img_depth] and [img_normal] are keys of test samples
    only. *)
Record Sample : Type := {
  img : Image;
  img_depth : option Image;
  img_normal : option Image;
  transform : tensor2;
  metadata : Frame;
}.

(** [cam_params = [H, W, f]]. *)
Record CamParams : Type := {
  cam_H : nat;
  cam_W : nat;
  cam_f : F;
}.

(** ** [load_data] *)

(** [cv2.cvtColor(cv2.imread(p), cv2.COLOR_BGR2RGB) / 255.0] *)
Definition imread_rgb (file : option Mat) : result Image :=
  match file with
  | None => Raise CvError
  | Some m =>
      Ok {| shape_H := mat_rows m;
            shape_W := mat_cols m;
            img_data :=
              map (λ '(b, g, r),
                     (fdiv (of_int r) (of_int 255),
                      fdiv (of_int g) (of_int 255),
                      fdiv (of_int b) (of_int 255))) (mat_data m) |}
  end.

(** Whether every row of a nested list has the length of the first. *)
Definition rectangular {A} (m : list (list A)) : bool :=
  match m with
  | [] => true
  | r :: rs => forallb (λ r', bool_decide (length r' = length r)) rs
  end.

(** [torch.from_numpy(np.array(m)).float()]: a ragged list is no numeric
    array.  The empty list gives the 1-D array of shape (0,). *)
Definition from_numpy_float (m : list (list F)) : result tensor2 :=
  if rectangular m then Ok (map (map f32) m) else Raise ValueError.

Definition train_body (ds : Dataset) (train_samples : list Sample) (i : nat)
  : result (list Sample) :=
  train_img ← getitem (train_img_paths ds) i ≫= imread_rgb;
  metadata ← getitem (frames (train_transform ds)) i;
  transform ← from_numpy_float (transform_matrix metadata);
  Ok (train_samples ++
      [{| img := train_img; img_depth := None; img_normal := None;
          transform := transform; metadata := metadata |}]).

Definition val_body (ds : Dataset) (val_samples : list Sample) (i : nat)
  : result (list Sample) :=
  val_img ← getitem (val_img_paths ds) i ≫= imread_rgb;
  metadata ← getitem (frames (val_transform ds)) i;
  transform ← from_numpy_float (transform_matrix metadata);
  Ok (val_samples ++
      [{| img := val_img; img_depth := None; img_normal := None;
          transform := transform; metadata := metadata |}]).

(** The test loop assigns the function-level variable [img]; the state is
    [test_samples] and the current binding of [img] ([None]: unbound). *)
Definition test_body (ds : Dataset) (st : list Sample * option Image) (i : nat)
  : result (list Sample * option Image) :=
  let '(test_samples, _) := st in
  img' ← getitem (test_img_paths ds) i ≫= imread_rgb;
  img_depth' ← getitem (test_depth_paths ds) i ≫= imread_rgb;
  img_normal' ← getitem (test_normal_paths ds) i ≫= imread_rgb;
  metadata ← getitem (frames (test_transform ds)) i;
  transform ← from_numpy_float (transform_matrix metadata);
  Ok (test_samples ++
      [{| img := img'; img_depth := Some img_depth'; img_normal := Some img_normal';
          transform := transform; metadata := metadata |}],
      Some img').

Definition load_data (ds : Dataset)
  : result (gmap string (list Sample) * CamParams) :=
  let num_train := length (train_img_paths ds) in
  let num_val := length (val_img_paths ds) in
  let num_test := length (test_img_paths ds) in
  train_samples ← for_range (train_body ds) num_train [];
  val_samples ← for_range (val_body ds) num_val [];
  '(test_samples, img_var) ← for_range (test_body ds) num_test ([], None);
  let fov := camera_angle_x (train_transform ds) in
  match img_var with
  | None => Raise NameError
  | Some im =>
      let H := shape_H im in
      let W := shape_W im in
      let f := fdiv (of_int (Z.of_nat W))
                    (fmul (of_int 2) (ftan (fdiv fov (of_int 2)))) in
      let cam_params := {| cam_H := H; cam_W := W; cam_f := f |} in
      let samples : gmap string (list Sample) :=
        <["val" := val_samples]>
          (<["test" := test_samples]> (<["train" := train_samples]> ∅)) in
      Ok (samples, cam_params)
  end.

(** ** [rays_single_cam] *)

(** Modelled from the spec: [utils/xyz.py] (function [rays_single_cam]) is
    not among the sources.  The basis is 3 x (H*W); column [i*W + j] is
    the direction of pixel (row i, column j):
    x = (j - W/2) / f, y = -(i - H/2) / f, z = -1, not normalized. *)
Definition rays_single_cam (cam_params : CamParams) : tensor2 :=
  let H := cam_H cam_params in
  let W := cam_W cam_params in
  let f := cam_f cam_params in
  let half n := fdiv (of_int (Z.of_nat n)) (of_int 2) in
  let pixels := i ← seq 0 H; j ← seq 0 W; [(i, j)] in
  [ map (λ '(i, j), fdiv (fsub (of_int (Z.of_nat j)) (half W)) f) pixels;
    map (λ '(i, j), fneg (fdiv (fsub (of_int (Z.of_nat i)) (half H)) f)) pixels;
    map (λ '(i, j), of_int (-1)) pixels ].

(** ** Tensor operations used by [rays_dataset] *)

(** Shape of the array a nested list denotes; [[]] is 1-D of shape (0,). *)
Definition shape2 (m : tensor2) : list nat :=
  match m with
  | [] => [0]
  | r :: _ => [length m; length r]
  end.

(** Last dimension of a matrix with at least one row. *)
Definition ncols (m : tensor2) : nat :=
  match m with
  | [] => 0
  | r :: _ => length r
  end.

(** [torch.stack]: needs a non-empty list of tensors of one shape. *)
Definition stack (ts : list tensor2) : result tensor3 :=
  match ts with
  | [] => Raise RuntimeError
  | t :: ts' =>
      if forallb (λ u, bool_decide (shape2 u = shape2 t)) ts'
      then Ok ts else Raise RuntimeError
  end.

(** [t[:, :3, cols]] where [cols] is [:3] or [3:].  Three indices on the
    stack of 1-D arrays are one too many. *)
Definition slice3 (cols : list F → list F) (t : tensor3) : result tensor3 :=
  match t with
  | [] :: _ => Raise IndexError
  | _ => Ok (map (λ m, map cols (take 3 m)) t)
  end.

Definition dot (u v : list F) : F :=
  foldl fadd fzero (zip_with fmul u v).

Definition column (p : nat) (M : tensor2) : list F :=
  map (λ r, nth p r fzero) M.

(** Matrix times vector. *)
Definition matvec (R : tensor2) (v : list F) : list F :=
  map (λ row, dot row v) R.

(** [torch.matmul] of a batch (B, a, b) with a matrix (b, n), applied to
    each matrix of the batch on its own. *)
Definition matmul (A : tensor3) (M : tensor2) : result tensor3 :=
  match A with
  | [] => Ok []
  | m :: _ =>
      if bool_decide (ncols m = length M)
      then Ok (map (λ m', map (λ row, map (λ p, dot row (column p M))
                                          (seq 0 (ncols M))) m') A)
      else Raise RuntimeError
  end.

(** One dimension of [expand]: kept when it has the target size,
    repeated when it has size 1. *)
Definition expand_dim {A} (n : nat) (l : list A) : result (list A) :=
  if bool_decide (length l = n) then Ok l
  else match l with
       | [x] => Ok (replicate n x)
       | _ => Raise RuntimeError
       end.

(** [t.expand(B, d1, d2)] for a [t] whose first dimension is B. *)
Definition expand (d1 d2 : nat) (t : tensor3) : result tensor3 :=
  mapM_result (λ m, rows ← expand_dim d1 m; mapM_result (expand_dim d2) rows) t.

Definition width3 (t : tensor3) : nat :=
  match t with
  | [] => 0
  | m :: _ => ncols m
  end.

(** [torch.cat((X, Y), dim=1)]: the other two dimensions must agree. *)
Definition cat1 (X Y : tensor3) : result tensor3 :=
  if bool_decide (length X = length Y ∧ width3 X = width3 Y)
  then Ok (zip_with app X Y) else Raise RuntimeError.

(** [t.permute(1, 0, 2)] *)
Definition permute102 (t : tensor3) : tensor3 :=
  match t with
  | [] => []
  | m :: _ => map (λ i, map (λ m', nth i m' []) t) (seq 0 (length m))
  end.

(** [t.reshape(6, -1)]: the elements in row-major order, cut in 6 rows. *)
Definition reshape6 (t : tensor3) : result tensor2 :=
  let flat := concat (concat t) in
  let n := length flat in
  if bool_decide (n mod 6 = 0)
  then Ok (map (λ r, take (n / 6) (drop (r * (n / 6)) flat)) (seq 0 6))
  else Raise RuntimeError.

(** ** [rays_dataset] *)

(** The body of the loop over [keys], for the samples of one split. *)
Definition rays_split (rays_1_cam : tensor2) (H W : nat) (smp : list Sample)
  : result tensor2 :=
  let num_images := length smp in
  transf_mats ← stack (map transform smp);
  rot ← slice3 (take 3) transf_mats;
  rays ← matmul rot rays_1_cam;
  cam_origins ← slice3 (drop 3) transf_mats;
  cam_origins ← expand 3 (H * W) cam_origins;
  cated ← cat1 cam_origins rays;
  reshape6 (permute102 cated).

Definition rays_dataset (samples : gmap string (list Sample)) (cam_params : CamParams)
  : result (gmap string tensor2) :=
  let keys := ["train"; "test"; "val"] in
  let rays_1_cam := rays_single_cam cam_params in
  let H := cam_H cam_params in
  let W := cam_W cam_params in
  for_each (λ (rays : gmap string tensor2) k,
              smp ← dict_get samples k;
              pool ← rays_split rays_1_cam H W smp;
              Ok (<[k := pool]> rays))
           keys ∅.

(** ** [RayGenerator] *)

Record RayGenerator : Type := {
  self_samples : gmap string (list Sample);
  self_cam_params : CamParams;
  self_H : nat;
  self_W : nat;
  self_f : F;
  self_rays_dataset : gmap string tensor2;
}.

(** [RayGenerator.__init__] *)
Definition RayGenerator_init (ds : Dataset) : result RayGenerator :=
  '(samples, cam_params) ← load_data ds;
  rays ← rays_dataset samples cam_params;
  Ok {| self_samples := samples;
        self_cam_params := cam_params;
        self_H := cam_H cam_params;
        self_W := cam_W cam_params;
        self_f := cam_f cam_params;
        self_rays_dataset := rays |}.

(** The state a call of [select] runs in: the engine object and the
    process-wide generator. *)
Record World : Type := {
  engine : RayGenerator;
  gen : G;
}.

(** [n] successive draws of [random_(low, high)]: raw value modulo the
    range, plus the base. *)
Fixpoint draws (low high : Z) (n : nat) (g : G) : list Z * G :=
  match n with
  | 0 => ([], g)
  | S n' =>
      let '(r, g1) := next_raw g in
      let '(ids, g2) := draws low high n' g1 in
      ((low + r mod (high - low))%Z :: ids, g2)
  end.

(** [torch.randint(low, high, (N,))]: the size must be a 64-bit integer
    (TypeError otherwise); the result tensor of N 8-byte integers is
    allocated first (a negative size is refused), then the range is
    checked, then the tensor is filled. *)
Definition randint (low high N : Z) (g : G) : result (list Z) * G :=
  if bool_decide (- 2 ^ 63 ≤ N < 2 ^ 63)%Z then
    if bool_decide (N < 0)%Z then (Raise RuntimeError, g)
    else
      match alloc N 8 with
      | Raise e => (Raise e, g)
      | Ok _ =>
          if bool_decide (low < high)%Z
          then let '(ids, g') := draws low high (Z.to_nat N) g in (Ok ids, g')
          else (Raise RuntimeError, g)
      end
  else (Raise TypeError, g).

(** One element of [row[ids]]: a negative index counts from the end. *)
Definition index_col (row : list F) (id : Z) : result F :=
  let w := Z.of_nat (length row) in
  if bool_decide (0 ≤ id < w)%Z then getitem row (Z.to_nat id)
  else if bool_decide (- w ≤ id < 0)%Z then getitem row (Z.to_nat (id + w))
  else Raise IndexError.

(** [data[:, ray_ids]]: the result, of one 4-byte float per row of
    [data] and id, is allocated, then filled. *)
Definition index_select (data : tensor2) (ray_ids : list Z) : result tensor2 :=
  _ ← alloc (Z.of_nat (length data) * Z.of_nat (length ray_ids)) 4;
  mapM_result (λ row, mapM_result (index_col row) ray_ids) data.

(** [M.transpose(1, 0)] of a matrix with [n] columns. *)
Definition transpose (n : nat) (M : tensor2) : tensor2 :=
  map (λ k, column k M) (seq 0 n).

(** [RayGenerator.select]; returns the result and the state after the
    call. *)
Definition select (w : World) (mode : string) (N : Z)
  : result (tensor2 * list Z) * World :=
  let self := engine w in
  match dict_get (self_rays_dataset self) mode with
  | Raise e => (Raise e, w)
  | Ok data =>
      match dict_get (self_samples self) mode with
      | Raise e => (Raise e, w)
      | Ok samples =>
          let '(r, g') := randint 0 (Z.of_nat (ncols data)) N (gen w) in
          let w' := {| engine := self; gen := g' |} in
          match r with
          | Raise e => (Raise e, w')
          | Ok ray_ids =>
              match index_select data ray_ids with
              | Raise e => (Raise e, w')
              | Ok sel => (Ok (transpose (length ray_ids) sel, ray_ids), w')
              end
          end
      end
  end.

End Dataload.

Arguments tensor2 : clear implicits.
Arguments tensor3 : clear implicits.
Arguments Image : clear implicits.
Arguments Frame : clear implicits.
Arguments Transforms : clear implicits.
Arguments Dataset : clear implicits.
Arguments Sample : clear implicits.
Arguments CamParams : clear implicits.
Arguments RayGenerator : clear implicits.
Arguments World : clear implicits.

(** * Vocabulary of the statements *)

Section Vocabulary.

Context {F : Type} `{FloatOps F}.

Definition keys : list string := ["train"; "test"; "val"].

(** The image paths and the transforms file of a split. *)
Definition split_paths (ds : Dataset F) (k : string) : list (option Mat) :=
  if decide (k = "train") then train_img_paths ds
  else if decide (k = "test") then test_img_paths ds
  else val_img_paths ds.

Definition split_transform (ds : Dataset F) (k : string) : Transforms F :=
  if decide (k = "train") then train_transform ds
  else if decide (k = "test") then test_transform ds
  else val_transform ds.

(** One round of the train or val loop, without the append. *)
Definition load_sample (files : list (option Mat)) (tr : Transforms F) (i : nat)
  : result (Sample F) :=
  im ← getitem files i ≫= imread_rgb;
  metadata ← getitem (frames tr) i;
  transform ← from_numpy_float (transform_matrix metadata);
  Ok {| img := im; img_depth := None; img_normal := None;
        transform := transform; metadata := metadata |}.

(** One round of the test loop. *)
Definition load_test_sample (ds : Dataset F) (i : nat) : result (Sample F) :=
  im ← getitem (test_img_paths ds) i ≫= imread_rgb;
  dp ← getitem (test_depth_paths ds) i ≫= imread_rgb;
  nm ← getitem (test_normal_paths ds) i ≫= imread_rgb;
  metadata ← getitem (frames (test_transform ds)) i;
  transform ← from_numpy_float (transform_matrix metadata);
  Ok {| img := im; img_depth := Some dp; img_normal := Some nm;
        transform := transform; metadata := metadata |}.

(** The intrinsics [load_data] derives from the image left in [img]. *)
Definition intrinsics (im : Image F) (fov : F) : CamParams F :=
  {| cam_H := shape_H im;
     cam_W := shape_W im;
     cam_f := fdiv (of_int (Z.of_nat (shape_W im)))
                   (fmul (of_int 2) (ftan (fdiv fov (of_int 2)))) |}.

Definition samples_dict (train test val : list (Sample F)) : gmap string (list (Sample F)) :=
  <["val" := val]> (<["test" := test]> (<["train" := train]> ∅)).

Definition pools_dict (train test val : tensor2 F) : gmap string (tensor2 F) :=
  <["val" := val]> (<["test" := test]> (<["train" := train]> ∅)).

(** A transforms file cut to its first [n] frames. *)
Definition clip (n : nat) (tr : Transforms F) : Transforms F :=
  {| camera_angle_x := camera_angle_x tr; frames := take n (frames tr) |}.

(** The dataset without the frames beyond the number of images. *)
Definition drop_extra_frames (ds : Dataset F) : Dataset F :=
  {| train_img_paths := train_img_paths ds;
     val_img_paths := val_img_paths ds;
     test_img_paths := test_img_paths ds;
     test_depth_paths := test_depth_paths ds;
     test_normal_paths := test_normal_paths ds;
     train_transform := clip (length (train_img_paths ds)) (train_transform ds);
     test_transform := clip (length (test_img_paths ds)) (test_transform ds);
     val_transform := clip (length (val_img_paths ds)) (val_transform ds) |}.

(** A pose that reduces to 3 x 4: at least three rows, of four entries. *)
Definition pose_ok (T : tensor2 F) : Prop :=
  3 ≤ length T ∧ Forall (λ r, length r = 4) T.

(** [T[:3, 3]] and [T[:3, :3]] *)
Definition translation (T : tensor2 F) : list F := column 3 (take 3 T).
Definition rotation (T : tensor2 F) : tensor2 F := map (take 3) (take 3 T).

(** The six rows image [T] contributes: three of its origin repeated
    over the [n] pixels, three of its rotated basis. *)
Definition image_rays (M : tensor2 F) (n : nat) (T : tensor2 F) : tensor2 F :=
  map (λ row, replicate n (nth 3 row fzero)) (take 3 T)
  ++ map (λ row, map (λ p, dot (take 3 row) (column p M)) (seq 0 n)) (take 3 T).


(** Two path lists that decode at the same positions. *)
Definition same_decodable (l1 l2 : list (option Mat)) : Prop :=
  Forall2 (λ a b, is_Some a ↔ is_Some b) l1 l2.

(** Two datasets with the same transforms files that differ at most in
    what their images contain and in the sizes of the images other than
    the last test image. *)
Definition differ_in_images_only (ds1 ds2 : Dataset F) : Prop :=
  train_transform ds1 = train_transform ds2 ∧
  test_transform ds1 = test_transform ds2 ∧
  val_transform ds1 = val_transform ds2 ∧
  same_decodable (train_img_paths ds1) (train_img_paths ds2) ∧
  same_decodable (val_img_paths ds1) (val_img_paths ds2) ∧
  same_decodable (test_img_paths ds1) (test_img_paths ds2) ∧
  same_decodable (test_depth_paths ds1) (test_depth_paths ds2) ∧
  same_decodable (test_normal_paths ds1) (test_normal_paths ds2) ∧
  ∀ m1 m2,
    last (test_img_paths ds1) = Some (Some m1) →
    last (test_img_paths ds2) = Some (Some m2) →
    mat_rows m1 = mat_rows m2 ∧ mat_cols m1 = mat_cols m2.

(** One round of the loading loop of split [k]. *)
Definition split_round (ds : Dataset F) (k : string) (i : nat) : result (Sample F) :=
  if decide (k = "test") then load_test_sample ds i
  else load_sample (split_paths ds k) (split_transform ds k) i.

End Vocabulary.

(** A batch size whose tensors can be allocated: the N x 6 batch of
    4-byte floats (and with it the N 8-byte ids) fits the storage size
    limit and the allocator. *)
Definition within_limits `{Allocator} (N : Z) : Prop :=
  (6 * N * 4 ≤ Z.min storage_max (Z.of_N max_bytes))%Z.

(** * A concrete arithmetic, generator and datasets, to run the definitions *)

Module Demo.

(** Exact rational arithmetic in lowest terms; [tan] is its Taylor
    polynomial of degree 3, and rounding to single precision is the
    identity. *)
#[export] Instance QFloat : FloatOps Q := {|
  fzero := 0%Q;
  fadd x y := Qred (Qplus x y);
  fsub x y := Qred (Qminus x y);
  fmul x y := Qred (Qmult x y);
  fdiv x y := Qred (Qdiv x y);
  fneg x := Qred (Qopp x);
  ftan x := Qred (Qplus x (Qdiv (Qmult x (Qmult x x)) 3));
  of_int z := inject_Z z;
  f32 x := x;
|}.

(** A 64-bit linear congruential generator. *)
#[export] Instance LCG : RandomGen Z := {|
  next_raw s :=
    let s' := ((6364136223846793005 * s + 1442695040888963407) mod 2 ^ 64)%Z in
    (s', s');
|}.

(** An allocator granting up to 16 GiB. *)
#[export] Instance Mem16G : Allocator := {|
  max_bytes := (2 ^ 34)%N;
|}.

Definition q (z : Z) : Q := inject_Z z.

(** A 2 x 2 image file of one colour. *)
Definition file22 (v : Z) : option Mat :=
  Some {| mat_rows := 2; mat_cols := 2; mat_data := replicate 4 (v, v, v) |}.

(** Rotation by a quarter turn about z, camera at (1, 2, 3). *)
Definition pose_a : list (list Q) :=
  [ [q 0; q (-1); q 0; q 1];
    [q 1; q 0; q 0; q 2];
    [q 0; q 0; q 1; q 3];
    [q 0; q 0; q 0; q 1] ].

(** Half turn about x, camera at (4, 5, 6). *)
Definition pose_b : list (list Q) :=
  [ [q 1; q 0; q 0; q 4];
    [q 0; q (-1); q 0; q 5];
    [q 0; q 0; q (-1); q 6];
    [q 0; q 0; q 0; q 1] ].

(** Identity rotation, camera at (7, 8, 9), given as 3 x 4. *)
Definition pose_c : list (list Q) :=
  [ [q 1; q 0; q 0; q 7];
    [q 0; q 1; q 0; q 8];
    [q 0; q 0; q 1; q 9] ].

Definition identity_pose : list (list Q) :=
  [ [q 1; q 0; q 0; q 0];
    [q 0; q 1; q 0; q 0];
    [q 0; q 0; q 1; q 0];
    [q 0; q 0; q 0; q 1] ].

Definition frame (name : string) (m : list (list Q)) : Frame Q :=
  {| file_path := name; transform_matrix := m |}.

Definition demo_ds : Dataset Q :=
  {| train_img_paths := [file22 255; file22 0];
     val_img_paths := [file22 51];
     test_img_paths := [file22 102];
     test_depth_paths := [file22 0];
     test_normal_paths := [file22 0];
     train_transform :=
       {| camera_angle_x := (1 # 1)%Q;
          frames := [frame "./train/r_0" pose_a; frame "./train/r_1" pose_b] |};
     test_transform :=
       {| camera_angle_x := (1 # 1)%Q;
          frames := [frame "./test/r_0" identity_pose] |};
     val_transform :=
       {| camera_angle_x := (1 # 1)%Q;
          frames := [frame "./val/r_0" pose_c] |} |}.

(** The engine built from [demo_ds] (construction succeeds on it). *)
Definition demo_eng : RayGenerator Q :=
  match RayGenerator_init demo_ds with
  | Ok eng => eng
  | Raise _ =>
      {| self_samples := ∅;
         self_cam_params := {| cam_H := 0; cam_W := 0; cam_f := 0%Q |};
         self_H := 0; self_W := 0; self_f := 0%Q;
         self_rays_dataset := ∅ |}
  end.

Definition demo_train : list (Sample Q) :=
  default [] (self_samples demo_eng !! "train").

(** Three train images but two train poses. *)
Definition ds_short : Dataset Q :=
  {| train_img_paths := [file22 255; file22 0; file22 7];
     val_img_paths := val_img_paths demo_ds;
     test_img_paths := test_img_paths demo_ds;
     test_depth_paths := test_depth_paths demo_ds;
     test_normal_paths := test_normal_paths demo_ds;
     train_transform := train_transform demo_ds;
     test_transform := test_transform demo_ds;
     val_transform := val_transform demo_ds |}.

(** Two train images but three train poses. *)
Definition ds_more : Dataset Q :=
  {| train_img_paths := train_img_paths demo_ds;
     val_img_paths := val_img_paths demo_ds;
     test_img_paths := test_img_paths demo_ds;
     test_depth_paths := test_depth_paths demo_ds;
     test_normal_paths := test_normal_paths demo_ds;
     train_transform :=
       {| camera_angle_x := (1 # 1)%Q;
          frames := [frame "./train/r_0" pose_a; frame "./train/r_1" pose_b;
                     frame "./train/r_2" identity_pose] |};
     test_transform := test_transform demo_ds;
     val_transform := val_transform demo_ds |}.

(** No test image. *)
Definition ds_no_test : Dataset Q :=
  {| train_img_paths := train_img_paths demo_ds;
     val_img_paths := val_img_paths demo_ds;
     test_img_paths := [];
     test_depth_paths := [];
     test_normal_paths := [];
     train_transform := train_transform demo_ds;
     test_transform := test_transform demo_ds;
     val_transform := val_transform demo_ds |}.

(** The scenario of one train image with the identity pose, H = W = 2
    and f = 1: the basis, and the pool of that image. *)
Definition cam221 : CamParams Q := {| cam_H := 2; cam_W := 2; cam_f := 1%Q |}.

Definition identity_sample : Sample Q :=
  {| img := {| shape_H := 2; shape_W := 2; img_data := [] |};
     img_depth := None; img_normal := None;
     transform := identity_pose;
     metadata := frame "./train/r_0" identity_pose |}.

(** The second train path does not decode. *)
Definition ds_bad_file : Dataset Q :=
  {| train_img_paths := [file22 255; None];
     val_img_paths := val_img_paths demo_ds;
     test_img_paths := test_img_paths demo_ds;
     test_depth_paths := test_depth_paths demo_ds;
     test_normal_paths := test_normal_paths demo_ds;
     train_transform := train_transform demo_ds;
     test_transform := test_transform demo_ds;
     val_transform := val_transform demo_ds |}.

(** A test image without depth image. *)
Definition ds_no_depth : Dataset Q :=
  {| train_img_paths := train_img_paths demo_ds;
     val_img_paths := val_img_paths demo_ds;
     test_img_paths := test_img_paths demo_ds;
     test_depth_paths := [];
     test_normal_paths := test_normal_paths demo_ds;
     train_transform := train_transform demo_ds;
     test_transform := test_transform demo_ds;
     val_transform := val_transform demo_ds |}.

(** The first val frame has rows of different lengths. *)
Definition ragged_frame : Frame Q :=
  frame "./val/r_0" [ [q 1; q 0; q 0; q 7]; [q 0; q 1; q 0]; [q 0; q 0; q 1; q 9] ].

Definition ds_ragged : Dataset Q :=
  {| train_img_paths := train_img_paths demo_ds;
     val_img_paths := val_img_paths demo_ds;
     test_img_paths := test_img_paths demo_ds;
     test_depth_paths := test_depth_paths demo_ds;
     test_normal_paths := test_normal_paths demo_ds;
     train_transform := train_transform demo_ds;
     test_transform := test_transform demo_ds;
     val_transform := {| camera_angle_x := (1 # 1)%Q; frames := [ragged_frame] |} |}.

(** No val image. *)
Definition ds_no_val : Dataset Q :=
  {| train_img_paths := train_img_paths demo_ds;
     val_img_paths := [];
     test_img_paths := test_img_paths demo_ds;
     test_depth_paths := test_depth_paths demo_ds;
     test_normal_paths := test_normal_paths demo_ds;
     train_transform := train_transform demo_ds;
     test_transform := test_transform demo_ds;
     val_transform := val_transform demo_ds |}.

(** A sample with the 3 x 4 pose. *)
Definition sample_c : Sample Q :=
  {| img := {| shape_H := 2; shape_W := 2; img_data := [] |};
     img_depth := None; img_normal := None;
     transform := pose_c;
     metadata := frame "./val/r_0" pose_c |}.

(** The demo dataset with train and val images of other sizes and
    colours. *)
Definition file35 (v : Z) : option Mat :=
  Some {| mat_rows := 3; mat_cols := 5; mat_data := replicate 15 (v, 0%Z, v) |}.

Definition ds_other_images : Dataset Q :=
  {| train_img_paths := [file35 9; file22 200];
     val_img_paths := [file35 31];
     test_img_paths := [file22 5];
     test_depth_paths := [file35 1];
     test_normal_paths := [file35 2];
     train_transform := train_transform demo_ds;
     test_transform := test_transform demo_ds;
     val_transform := val_transform demo_ds |}.

End Demo.


(** * Properties *)

(** ** Loops and comprehensions *)

Lemma bind_Ok_inv {A B} (m : result A) (k : A → result B) (b : B) :
  m ≫= k = Ok b → ∃ a, m = Ok a ∧ k a = Ok b.
Proof. destruct m as [a|e]; [eauto | discriminate]. Qed.

Section Loops.

Context {A B St : Type}.

Lemma mapM_result_length (f : A → result B) (l : list A) (bs : list B) :
  mapM_result f l = Ok bs → length bs = length l.
Proof.
  revert bs. induction l as [|a l IH]; intros bs Hm; simpl in Hm.
  - by inversion Hm.
  - apply bind_Ok_inv in Hm as (b & Hb & Hm).
    apply bind_Ok_inv in Hm as (bs' & Hbs & Hm).
    inversion Hm; subst. simpl. f_equal. by apply IH.
Qed.

Lemma mapM_result_lookup (f : A → result B) (l : list A) (bs : list B) i a :
  mapM_result f l = Ok bs → l !! i = Some a →
  ∃ b, bs !! i = Some b ∧ f a = Ok b.
Proof.
  revert bs i. induction l as [|a' l IH]; intros bs i Hm Hi; [done|].
  simpl in Hm.
  apply bind_Ok_inv in Hm as (b & Hb & Hm).
  apply bind_Ok_inv in Hm as (bs' & Hbs & Hm).
  inversion Hm; subst. destruct i as [|i]; simpl in *.
  - inversion Hi; subst. eauto.
  - eauto.
Qed.

Lemma mapM_result_Raise (f : A → result B) (l : list A) a :
  a ∈ l → is_Raise (f a) → is_Raise (mapM_result f l).
Proof.
  intros Hin [e He]. induction l as [|a' l IH]; [by apply elem_of_nil in Hin|].
  simpl. apply elem_of_cons in Hin as [->|Hin].
  - rewrite He. by exists e.
  - destruct (f a'); simpl; [|by eexists].
    destruct (IH Hin) as [e' He']. rewrite He'. by exists e'.
Qed.

Lemma mapM_result_ext (f g : A → result B) (l : list A) :
  (∀ a, a ∈ l → f a = g a) → mapM_result f l = mapM_result g l.
Proof.
  induction l as [|a l IH]; intros Hfg; [done|]. simpl.
  rewrite Hfg by left. rewrite IH; [done|].
  intros a' Ha'. apply Hfg. by right.
Qed.

Lemma mapM_result_total (f : A → result B) (g : A → B) (l : list A) :
  (∀ a, a ∈ l → f a = Ok (g a)) → mapM_result f l = Ok (map g l).
Proof.
  induction l as [|a l IH]; intros Hfg; [done|]. simpl.
  rewrite Hfg by left. rewrite IH; [done|].
  intros a' Ha'. apply Hfg. by right.
Qed.

(** A loop that appends one item per round is a comprehension. *)
Lemma for_each_append (f : A → result B) (l : list A) (acc : list B) :
  for_each (λ acc x, b ← f x; Ok (acc ++ [b])) l acc
  = bs ← mapM_result f l; Ok (acc ++ bs).
Proof.
  revert acc. induction l as [|a l IH]; intros acc; simpl.
  - by rewrite app_nil_r.
  - destruct (f a) as [b|e]; simpl; [|done].
    rewrite IH. destruct (mapM_result f l); simpl; [|done].
    by rewrite <- app_assoc.
Qed.

(** The same when the loop also leaves its last item in a variable. *)
Lemma for_each_append_last (f : A → result B) (c : B → St) (l : list A)
    (acc : list B) (v : option St) :
  for_each (λ (st : list B * option St) x,
              let '(acc, _) := st in b ← f x; Ok (acc ++ [b], Some (c b))) l (acc, v)
  = bs ← mapM_result f l;
    Ok (acc ++ bs, match last bs with Some b => Some (c b) | None => v end).
Proof.
  revert acc v. induction l as [|a l IH]; intros acc v; simpl.
  - by rewrite app_nil_r.
  - destruct (f a) as [b|e]; simpl; [|done].
    rewrite IH. destruct (mapM_result f l) as [bs|]; simpl; [|done].
    rewrite <- app_assoc, last_cons. by destruct (last bs).
Qed.

Lemma for_each_ext (f g : St → A → result St) (l : list A) (s : St) :
  (∀ s a, a ∈ l → f s a = g s a) → for_each f l s = for_each g l s.
Proof.
  revert s. induction l as [|a l IH]; intros s Hfg; [done|]. simpl.
  rewrite Hfg by left. destruct (g s a); simpl; [|done].
  apply IH. intros s' a' Ha'. apply Hfg. by right.
Qed.

End Loops.

(** The last item of a comprehension over [range(n)] is the item of
    round [n - 1]. *)
Lemma mapM_result_seq_last {B} (f : nat → result B) (n : nat) (bs : list B) (b : B) :
  mapM_result f (seq 0 n) = Ok bs → last bs = Some b →
  0 < n ∧ f (n - 1) = Ok b.
Proof.
  intros Hm Hlast. pose proof (mapM_result_length _ _ _ Hm) as Hlen.
  rewrite length_seq in Hlen. rewrite last_lookup, Hlen in Hlast.
  destruct n as [|n]; [by destruct bs|]. split; [lia|].
  destruct (mapM_result_lookup f (seq 0 (S n)) bs n n Hm) as (b' & Hb' & Hf).
  { apply lookup_seq_lt. lia. }
  simpl in Hlast. rewrite Hb' in Hlast. injection Hlast as ->.
  by rewrite Nat.sub_1_r.
Qed.

(** ** [load_data] as three comprehensions *)

Section LoadData.

Context {F : Type} `{FloatOps F}.

Lemma train_body_eq (ds : Dataset F) acc i :
  train_body ds acc i
  = s ← load_sample (train_img_paths ds) (train_transform ds) i; Ok (acc ++ [s]).
Proof.
  unfold train_body, load_sample.
  destruct (getitem (train_img_paths ds) i ≫= imread_rgb); simpl; [|done].
  destruct (getitem (frames (train_transform ds)) i); simpl; [|done].
  by destruct (from_numpy_float _).
Qed.

Lemma val_body_eq (ds : Dataset F) acc i :
  val_body ds acc i
  = s ← load_sample (val_img_paths ds) (val_transform ds) i; Ok (acc ++ [s]).
Proof.
  unfold val_body, load_sample.
  destruct (getitem (val_img_paths ds) i ≫= imread_rgb); simpl; [|done].
  destruct (getitem (frames (val_transform ds)) i); simpl; [|done].
  by destruct (from_numpy_float _).
Qed.

Lemma test_body_eq (ds : Dataset F) st i :
  test_body ds st i
  = let '(acc, _) := st in
    s ← load_test_sample ds i; Ok (acc ++ [s], Some (img s)).
Proof.
  unfold test_body, load_test_sample. destruct st as [acc v].
  destruct (getitem (test_img_paths ds) i ≫= imread_rgb); simpl; [|done].
  destruct (getitem (test_depth_paths ds) i ≫= imread_rgb); simpl; [|done].
  destruct (getitem (test_normal_paths ds) i ≫= imread_rgb); simpl; [|done].
  destruct (getitem (frames (test_transform ds)) i); simpl; [|done].
  by destruct (from_numpy_float _).
Qed.

Lemma load_data_eq (ds : Dataset F) :
  load_data ds
  = train ← mapM_result (load_sample (train_img_paths ds) (train_transform ds))
                        (seq 0 (length (train_img_paths ds)));
    val ← mapM_result (load_sample (val_img_paths ds) (val_transform ds))
                      (seq 0 (length (val_img_paths ds)));
    test ← mapM_result (load_test_sample ds) (seq 0 (length (test_img_paths ds)));
    match last test with
    | None => Raise NameError
    | Some s =>
        Ok (samples_dict train test val,
            intrinsics (img s) (camera_angle_x (train_transform ds)))
    end.
Proof.
  unfold load_data, for_range.
  rewrite (for_each_ext _ _ _ _ (λ s a _, train_body_eq ds s a)).
  rewrite (for_each_ext _ _ _ _ (λ s a _, val_body_eq ds s a)).
  rewrite (for_each_ext _ _ _ _ (λ s a _, test_body_eq ds s a)).
  rewrite !for_each_append, (for_each_append_last _ img).
  destruct (mapM_result _ (seq 0 (length (train_img_paths ds)))) as [tr|]; simpl; [|done].
  destruct (mapM_result _ (seq 0 (length (val_img_paths ds)))) as [va|]; simpl; [|done].
  destruct (mapM_result _ (seq 0 (length (test_img_paths ds)))) as [te|]; simpl; [|done].
  by destruct (last te).
Qed.

(** The intrinsics come from the last test image. *)
Lemma load_test_sample_img (ds : Dataset F) i s :
  load_test_sample ds i = Ok s →
  ∃ m, test_img_paths ds !! i = Some (Some m) ∧
       shape_H (img s) = mat_rows m ∧ shape_W (img s) = mat_cols m.
Proof.
  unfold load_test_sample, getitem. intros Hs.
  apply bind_Ok_inv in Hs as (im & Him & Hs).
  destruct (test_img_paths ds !! i) as [[m|]|]; try done.
  simpl in Him. injection Him as <-.
  apply bind_Ok_inv in Hs as (dp & _ & Hs).
  apply bind_Ok_inv in Hs as (nm & _ & Hs).
  apply bind_Ok_inv in Hs as (md & _ & Hs).
  apply bind_Ok_inv in Hs as (tf & _ & Hs).
  injection Hs as <-. by exists m.
Qed.

Lemma load_data_Ok (ds : Dataset F) samples cp :
  load_data ds = Ok (samples, cp) →
  ∃ m, last (test_img_paths ds) = Some (Some m) ∧
       cp = {| cam_H := mat_rows m;
               cam_W := mat_cols m;
               cam_f := fdiv (of_int (Z.of_nat (mat_cols m)))
                             (fmul (of_int 2)
                                (ftan (fdiv (camera_angle_x (train_transform ds))
                                            (of_int 2)))) |}.
Proof.
  rewrite load_data_eq. intros Hload.
  apply bind_Ok_inv in Hload as (tr & _ & Hload).
  apply bind_Ok_inv in Hload as (va & _ & Hload).
  apply bind_Ok_inv in Hload as (te & Hte & Hload).
  destruct (last te) as [s|] eqn:Hlast; [|done].
  injection Hload as <- <-.
  destruct (mapM_result_seq_last _ _ _ _ Hte Hlast) as [Hn Hs].
  apply load_test_sample_img in Hs as (m & Hm & HH & HW).
  exists m. split.
  - by rewrite last_lookup, <- Nat.sub_1_r.
  - unfold intrinsics. by rewrite HH, HW.
Qed.

Lemma load_data_empty_test (ds : Dataset F) :
  test_img_paths ds = [] → is_Raise (load_data ds).
Proof.
  intros Hempty. rewrite load_data_eq, Hempty. simpl.
  destruct (mapM_result _ (seq 0 (length (train_img_paths ds)))); simpl; [|by eexists].
  destruct (mapM_result _ (seq 0 (length (val_img_paths ds)))); simpl; by eexists.
Qed.

Lemma init_Raise (ds : Dataset F) :
  is_Raise (load_data ds) → is_Raise (RayGenerator_init ds).
Proof. intros [e He]. unfold RayGenerator_init. rewrite He. by exists e. Qed.

(** *** Fewer or more pose entries than images *)

Lemma load_sample_short files (tr : Transforms F) i :
  length (frames tr) ≤ i → is_Raise (load_sample files tr i).
Proof.
  intros Hi. unfold load_sample.
  destruct (getitem files i ≫= imread_rgb); simpl; [|by eexists].
  unfold getitem. rewrite lookup_ge_None_2 by done. by eexists.
Qed.

Lemma load_test_sample_short (ds : Dataset F) i :
  length (frames (test_transform ds)) ≤ i → is_Raise (load_test_sample ds i).
Proof.
  intros Hi. unfold load_test_sample.
  destruct (getitem (test_img_paths ds) i ≫= imread_rgb); simpl; [|by eexists].
  destruct (getitem (test_depth_paths ds) i ≫= imread_rgb); simpl; [|by eexists].
  destruct (getitem (test_normal_paths ds) i ≫= imread_rgb); simpl; [|by eexists].
  unfold getitem. rewrite lookup_ge_None_2 by done. by eexists.
Qed.

Lemma mapM_result_seq_Raise {B} (f : nat → result B) n i :
  i < n → is_Raise (f i) → is_Raise (mapM_result f (seq 0 n)).
Proof. intros Hi. apply mapM_result_Raise, elem_of_seq. lia. Qed.

Lemma getitem_take {A} (l : list A) n i : i < n → getitem (take n l) i = getitem l i.
Proof. intros Hi. unfold getitem. by rewrite lookup_take_lt. Qed.

Lemma load_data_drop_extra (ds : Dataset F) :
  load_data (drop_extra_frames ds) = load_data ds.
Proof.
  rewrite !load_data_eq. simpl.
  rewrite (mapM_result_ext (load_sample _ (clip _ (train_transform ds)))
             (load_sample (train_img_paths ds) (train_transform ds))).
  2:{ intros i Hi%elem_of_seq. unfold load_sample. simpl.
      by rewrite getitem_take by lia. }
  rewrite (mapM_result_ext (load_sample _ (clip _ (val_transform ds)))
             (load_sample (val_img_paths ds) (val_transform ds))).
  2:{ intros i Hi%elem_of_seq. unfold load_sample. simpl.
      by rewrite getitem_take by lia. }
  rewrite (mapM_result_ext (load_test_sample (drop_extra_frames ds))
             (load_test_sample ds)).
  2:{ intros i Hi%elem_of_seq. unfold load_test_sample. simpl.
      by rewrite getitem_take by lia. }
  done.
Qed.

End LoadData.

(** ** Lists of rows *)

Section Rows.

Context {A : Type}.
Implicit Types (l : list A) (ls : list (list A)).

Lemma mapM_result_Forall {B} (f : B → result A) (P : A → Prop) (bs : list B) l :
  (∀ b a, f b = Ok a → P a) → mapM_result f bs = Ok l → Forall P l.
Proof.
  intros HP. revert l. induction bs as [|b bs IH]; intros l Hm; simpl in Hm.
  - inversion Hm. constructor.
  - apply bind_Ok_inv in Hm as (a & Ha & Hm).
    apply bind_Ok_inv in Hm as (l' & Hl' & Hm).
    inversion Hm; subst. constructor; eauto.
Qed.

Lemma length_concat_uniform n ls :
  Forall (λ l, length l = n) ls → length (concat ls) = length ls * n.
Proof.
  induction 1 as [|l ls Hl _ IH]; [done|].
  simpl. rewrite length_app, Hl, IH. lia.
Qed.

(** Element [k*n + p] of the concatenation of rows of length [n] is
    element [p] of row [k]. *)
Lemma nth_concat_uniform n ls k p d :
  Forall (λ l, length l = n) ls → p < n →
  nth (k * n + p) (concat ls) d = nth p (nth k ls []) d.
Proof.
  intros Hls Hp. revert k. induction Hls as [|l ls Hl _ IH]; intros k.
  - simpl. by destruct (k * n + p), k, p.
  - simpl. destruct k as [|k].
    + simpl. apply app_nth1. lia.
    + rewrite app_nth2 by (rewrite Hl; simpl; lia).
      rewrite Hl. replace (S k * n + p - n) with (k * n + p) by (simpl; lia).
      apply IH.
Qed.

Lemma nth_take_drop w s c l d :
  c < w → nth c (take w (drop s l)) d = nth (s + c) l d.
Proof.
  intros Hc. rewrite !nth_lookup, lookup_take_lt, lookup_drop; done.
Qed.

Lemma map_nth_seq {B} (f : A → B) l d :
  map (λ i, f (nth i l d)) (seq 0 (length l)) = map f l.
Proof.
  induction l as [|a l IH]; [done|].
  simpl. f_equal. rewrite <- seq_shift, map_map. apply IH.
Qed.

Lemma map_lookup_Some {B} (f : A → B) l i a :
  l !! i = Some a → map f l !! i = Some (f a).
Proof. intros Hi. change (map f l) with (f <$> l). by rewrite list_lookup_fmap, Hi. Qed.

Lemma length_bind_uniform {B} (f : B → list A) (bs : list B) n :
  (∀ b, length (f b) = n) → length (bs ≫= f) = length bs * n.
Proof.
  intros Hf. induction bs as [|b bs IH]; [done|].
  rewrite bind_cons, length_app, Hf, IH. simpl. lia.
Qed.

Lemma expand_dim_length n l l' : expand_dim n l = Ok l' → length l' = n.
Proof.
  unfold expand_dim. case_bool_decide as Hn.
  - by intros [= <-].
  - destruct l as [|x [|??]]; intros [= <-]. apply length_replicate.
Qed.

Lemma expand_dim_singleton n (x : A) : expand_dim n [x] = Ok (replicate n x).
Proof.
  unfold expand_dim. case_bool_decide as Hn; [|done].
  simpl in Hn. by subst n.
Qed.

End Rows.

(** ** Shape of a ray pool *)

Section Pool.

Context {F : Type} `{FloatOps F}.

Local Arguments Nat.div : simpl never.
Local Arguments Nat.modulo : simpl never.
Local Arguments Nat.mul : simpl never.
Implicit Types (M pool : tensor2 F) (t : tensor3 F) (smp : list (Sample F)).

Lemma rays_single_cam_length (cp : CamParams F) : length (rays_single_cam cp) = 3.
Proof. done. Qed.

Lemma rays_single_cam_rows (cp : CamParams F) :
  Forall (λ r, length r = cam_H cp * cam_W cp) (rays_single_cam cp).
Proof.
  assert (length (i ← seq 0 (cam_H cp); j ← seq 0 (cam_W cp); [(i, j)])
          = cam_H cp * cam_W cp) as Hpix.
  { rewrite (length_bind_uniform _ _ (cam_W cp)), length_seq; [done|].
    intros i. rewrite (length_bind_uniform _ _ 1), length_seq; [lia|done]. }
  unfold rays_single_cam. repeat constructor; by rewrite length_map.
Qed.

Lemma rays_single_cam_ncols (cp : CamParams F) :
  ncols (rays_single_cam cp) = cam_H cp * cam_W cp.
Proof.
  pose proof (rays_single_cam_rows cp) as Hrows.
  unfold rays_single_cam in *. by inversion Hrows.
Qed.

Lemma stack_Ok (ts : list (tensor2 F)) t :
  stack ts = Ok t → t = ts ∧ ts ≠ [].
Proof.
  unfold stack. destruct ts as [|t0 ts]; [done|].
  destruct (forallb _ _); [|done]. by intros [= <-].
Qed.

Lemma slice3_Ok (cols : list F → list F) t t' :
  slice3 cols t = Ok t' → t' = map (λ m, map cols (take 3 m)) t.
Proof.
  unfold slice3. destruct t as [|[|r m] t]; [|done|]; by intros [= <-].
Qed.

Lemma reshape6_Ok t pool :
  reshape6 t = Ok pool →
  let flat := concat (concat t) in
  let w := length flat / 6 in
  length flat = 6 * w ∧
  pool = map (λ r, take w (drop (r * w) flat)) (seq 0 6).
Proof.
  unfold reshape6. case_bool_decide as Hmod; [|done].
  intros [= <-]. split; [|done].
  pose proof (Nat.div_mod_eq (length (concat (concat t))) 6). lia.
Qed.

Lemma reshape6_shape t pool :
  reshape6 t = Ok pool →
  length pool = 6 ∧
  Forall (λ r, length r = length (concat (concat t)) / 6) pool.
Proof.
  intros Hr. apply reshape6_Ok in Hr as [Hlen ->]. split; [done|].
  apply Forall_map, Forall_forall. intros r Hr%elem_of_seq. simpl.
  rewrite length_take, length_drop. simpl in Hlen.
  set (w := length (concat (concat t)) / 6) in *.
  assert (r * w + w ≤ 6 * w) by nia. lia.
Qed.

Lemma expand_shape d1 d2 t t' :
  expand d1 d2 t = Ok t' →
  length t' = length t ∧
  Forall (λ m, length m = d1 ∧ Forall (λ r, length r = d2) m) t'.
Proof.
  intros He. split; [by eapply mapM_result_length|].
  eapply mapM_result_Forall; [|exact He]. simpl.
  intros m m' Hm. apply bind_Ok_inv in Hm as (rows & Hrows & Hm). split.
  - apply mapM_result_length in Hm. apply expand_dim_length in Hrows. lia.
  - eapply mapM_result_Forall; [|exact Hm]. intros ??. apply expand_dim_length.
Qed.

(** What a successful run of the loop body went through. *)
Lemma rays_split_inv M Hh W smp pool :
  rays_split M Hh W smp = Ok pool →
  smp ≠ [] ∧
  ∃ org rays,
    expand 3 (Hh * W) (map (λ m, map (drop 3) (take 3 m)) (map transform smp)) = Ok org ∧
    matmul (map (λ m, map (take 3) (take 3 m)) (map transform smp)) M = Ok rays ∧
    length org = length rays ∧
    reshape6 (permute102 (zip_with app org rays)) = Ok pool.
Proof.
  unfold rays_split. intros Hr.
  apply bind_Ok_inv in Hr as (ts & Hts & Hr). apply stack_Ok in Hts as [-> Hne].
  apply bind_Ok_inv in Hr as (rot & Hrot & Hr). apply slice3_Ok in Hrot as ->.
  apply bind_Ok_inv in Hr as (rays & Hrays & Hr).
  apply bind_Ok_inv in Hr as (org0 & Horg0 & Hr). apply slice3_Ok in Horg0 as ->.
  apply bind_Ok_inv in Hr as (org & Horg & Hr).
  apply bind_Ok_inv in Hr as (cated & Hcat & Hr).
  unfold cat1 in Hcat. case_bool_decide as Hdims; [|done].
  destruct Hdims as [Hlen _]. injection Hcat as <-. split.
  - by intros ->.
  - exists org, rays. naive_solver.
Qed.

(** Every pool that is built has six rows of one width, and the width
    is positive when the image is not empty. *)
Lemma rays_split_shape M Hh W smp pool :
  rays_split M Hh W smp = Ok pool →
  length pool = 6 ∧
  Forall (λ r, length r = ncols pool) pool ∧
  (0 < Hh * W → 0 < ncols pool).
Proof.
  intros (Hne & org & rays & Horg & Hrays & Hlen & Hre)%rays_split_inv.
  pose proof (reshape6_shape _ _ Hre) as [H6 Hrows].
  assert (ncols pool = length (concat (concat (permute102 (zip_with app org rays)))) / 6)
    as Hw.
  { destruct pool as [|r pool]; [done|]. by inversion Hrows. }
  split; [done|]. split; [by rewrite Hw|].
  intros Hpos. rewrite Hw.
  apply reshape6_Ok in Hre as [Hflat _].
  apply expand_shape in Horg as [Hlorg Horg].
  rewrite !length_map in Hlorg.
  destruct smp as [|s smp]; [done|].
  destruct org as [|o org]; [done|]. destruct rays as [|r rays]; [done|].
  apply Forall_cons in Horg as [[Ho Horow] _].
  destruct o as [|o0 o]; [done|]. apply Forall_cons in Horow as [Ho0 _].
  cbv zeta in Hflat.
  set (n := length (concat (concat (permute102
              (zip_with app ((o0 :: o) :: org) (r :: rays)))))) in *.
  assert (length o0 ≤ n) as Hge.
  { subst n. simpl. rewrite !length_app. lia. }
  destruct (n / 6) as [|w']; lia.
Qed.

(** ** Layout of a ray pool over well-formed poses *)

Lemma image_rays_length M n T : pose_ok T → length (image_rays M n T) = 6.
Proof.
  intros [HT _]. unfold image_rays.
  rewrite length_app, !length_map, length_take. lia.
Qed.

Lemma image_rays_rows M n T :
  Forall (λ r, length r = n) (image_rays M n T).
Proof.
  unfold image_rays. apply Forall_app. split; apply Forall_map, Forall_forall;
    intros row _; simpl.
  - apply length_replicate.
  - by rewrite length_map, length_seq.
Qed.

Lemma image_rays_column M n T p :
  p < n →
  column p (image_rays M n T) = translation T ++ matvec (rotation T) (column p M).
Proof.
  intros Hp. unfold column at 1, image_rays, translation, matvec, rotation.
  rewrite map_app, !map_map. f_equal.
  - apply map_ext. intros row. apply nth_lookup_Some, lookup_replicate_2, Hp.
  - apply map_ext. intros row. apply nth_lookup_Some.
    rewrite list_lookup_fmap, lookup_seq_lt by done. done.
Qed.

Lemma matmul_Ok (A : tensor3 F) M rays :
  matmul A M = Ok rays →
  rays = map (λ m', map (λ row, map (λ p, dot row (column p M)) (seq 0 (ncols M))) m') A.
Proof.
  unfold matmul. destruct A as [|m A]; [by intros [= <-]|].
  case_bool_decide; [|done]. by intros [= <-].
Qed.

Lemma expand_origins n (ts : list (tensor2 F)) org :
  Forall pose_ok ts →
  expand 3 n (map (λ m, map (drop 3) (take 3 m)) ts) = Ok org →
  org = map (λ T, map (λ row, replicate n (nth 3 row fzero)) (take 3 T)) ts.
Proof.
  intros Hts He. unfold expand in He.
  rewrite (mapM_result_total _
             (λ m, map (λ r, replicate n (nth 0 r fzero)) m)) in He.
  - injection He as <-. rewrite map_map. apply map_ext_in.
    intros T _. rewrite map_map. apply map_ext.
    intros row. by rewrite !nth_lookup, lookup_drop.
  - intros m (T & -> & HT)%list_elem_of_fmap.
    rewrite Forall_forall in Hts. destruct (Hts T HT) as [Hlen Hrows].
    cbv beta.
    assert (expand_dim 3 (map (drop 3) (take 3 T)) = Ok (map (drop 3) (take 3 T)))
      as ->.
    { unfold expand_dim. rewrite bool_decide_eq_true_2; [done|].
      rewrite length_map, length_take. lia. }
    simpl. apply mapM_result_total.
    intros r (row & -> & (i & Hrow & _)%elem_of_take)%list_elem_of_fmap.
    rewrite Forall_forall in Hrows.
    specialize (Hrows row (list_elem_of_lookup_2 _ _ _ Hrow)).
    destruct row as [|x0 [|x1 [|x2 [|x3 [|x4 row]]]]]; try done.
    apply expand_dim_singleton.
Qed.

Lemma rays_split_cated M Hh W smp pool :
  length M = 3 → Forall (λ r, length r = Hh * W) M →
  Forall (λ s, pose_ok (transform s)) smp →
  rays_split M Hh W smp = Ok pool →
  smp ≠ [] ∧
  reshape6 (permute102 (map (λ s, image_rays M (Hh * W) (transform s)) smp)) = Ok pool.
Proof.
  intros HM Hrows Hsmp (Hne & org & rays & Horg & Hrays & _ & Hre)%rays_split_inv.
  split; [done|].
  apply expand_origins in Horg; [|by apply Forall_map].
  apply matmul_Ok in Hrays.
  assert (ncols M = Hh * W) as Hn.
  { destruct M as [|r M]; [done|]. by inversion Hrows. }
  rewrite Hn in Hrays. subst org rays.
  rewrite !map_map in Hre. rewrite <- Hre. do 2 f_equal.
  clear. induction smp as [|s smp IH]; [done|]. simpl. f_equal; [|done].
  unfold image_rays. by rewrite map_map.
Qed.

(** The permute and reshape of a batch of 6 x n matrices: column
    [b*n + p] of the result is column [p] of matrix [b]. *)
Lemma permute_reshape_layout n (Xs : tensor3 F) pool :
  Xs ≠ [] →
  Forall (λ X, length X = 6 ∧ Forall (λ r, length r = n) X) Xs →
  reshape6 (permute102 Xs) = Ok pool →
  Forall (λ r, length r = length Xs * n) pool ∧
  ∀ b X p, Xs !! b = Some X → p < n → column (b * n + p) pool = column p X.
Proof.
  unfold tensor3, tensor2 in *. intros Hne HXs Hre.
  set (Y := map (λ i, map (λ m', nth i m' []) Xs) (seq 0 6)).
  assert (permute102 Xs = Y) as HY.
  { destruct Xs as [|X0 Xs']; [done|]. apply Forall_cons in HXs as [[H6 _] _].
    unfold permute102. by rewrite H6. }
  rewrite HY in Hre.
  assert (Forall (λ l, length l = length Xs) Y) as HYlen.
  { apply Forall_map, Forall_forall. intros i _. simpl. by rewrite length_map. }
  assert (Forall (λ l, length l = n) (concat Y)) as HYrows.
  { apply Forall_concat, Forall_map, Forall_forall.
    intros i Hi%elem_of_seq. simpl. apply Forall_map.
    eapply Forall_impl; [exact HXs|]. intros X [H6 HX]. simpl.
    rewrite Forall_forall in HX. apply HX, list_elem_of_In, nth_In. lia. }
  assert (length (concat (concat Y)) = 6 * (length Xs * n)) as Hflat.
  { rewrite (length_concat_uniform n) by done.
    rewrite (length_concat_uniform (length Xs)) by done.
    unfold Y. rewrite length_map, length_seq. lia. }
  pose proof (reshape6_shape _ _ Hre) as [_ Hrows].
  apply reshape6_Ok in Hre as [_ Hpool]. cbv zeta in Hpool.
  rewrite Hflat in Hrows, Hpool.
  replace (6 * (length Xs * n) / 6) with (length Xs * n) in Hrows, Hpool
    by (symmetry; rewrite Nat.mul_comm; apply Nat.div_mul; lia).
  split; [done|]. intros b X p Hb Hp.
  assert (b < length Xs) as Hlt by (by eapply lookup_lt_Some).
  destruct (Forall_lookup_1 _ _ _ _ HXs Hb) as [H6 HX].
  rewrite Hpool. unfold column. rewrite map_map.
  rewrite <- (map_nth_seq (λ r, nth p r fzero) X []), H6.
  apply map_ext_in. intros r Hr%in_seq.
  rewrite nth_take_drop by nia.
  replace (r * (length Xs * n) + (b * n + p)) with ((r * length Xs + b) * n + p) by lia.
  rewrite (nth_concat_uniform n) by done.
  rewrite (nth_concat_uniform (length Xs)) by done.
  assert (nth b (nth r Y []) [] = nth r X []) as ->; [|done]. unfold Y.
  rewrite (nth_lookup_Some _ _ _ (map (λ m', nth r m' []) Xs)).
  - apply nth_lookup_Some, (map_lookup_Some (λ m', nth r m' [])), Hb.
  - apply (map_lookup_Some (λ i, map (λ m', nth i m' []) Xs)), lookup_seq_lt. lia.
Qed.

(** Layout of the pool of one split. *)
Lemma rays_split_layout M Hh W smp pool :
  length M = 3 → Forall (λ r, length r = Hh * W) M →
  Forall (λ s, pose_ok (transform s)) smp →
  rays_split M Hh W smp = Ok pool →
  smp ≠ [] ∧
  Forall (λ r, length r = length smp * (Hh * W)) pool ∧
  ∀ b s p, smp !! b = Some s → p < Hh * W →
    column (b * (Hh * W) + p) pool
    = translation (transform s) ++ matvec (rotation (transform s)) (column p M).
Proof.
  intros HM Hrows Hsmp Hr.
  destruct (rays_split_cated _ _ _ _ _ HM Hrows Hsmp Hr) as [Hne Hre].
  split; [done|].
  apply (permute_reshape_layout (Hh * W)) in Hre as [Hlen Hcol].
  - rewrite length_map in Hlen. split; [done|].
    intros b s p Hb Hp. rewrite <- (image_rays_column M (Hh * W)) by done.
    apply Hcol; [|done].
    by apply (map_lookup_Some (λ s, image_rays M (Hh * W) (transform s))).
  - by destruct smp.
  - apply Forall_map. eapply Forall_impl; [exact Hsmp|].
    intros s Hs. simpl. split; [by apply image_rays_length|apply image_rays_rows].
Qed.

End Pool.

(** ** What construction establishes *)

Section Construction.

Context {F : Type} `{FloatOps F}.

Lemma samples_dict_train (tr te va : list (Sample F)) :
  samples_dict tr te va !! "train" = Some tr.
Proof. unfold samples_dict. by simplify_map_eq. Qed.

Lemma samples_dict_test (tr te va : list (Sample F)) :
  samples_dict tr te va !! "test" = Some te.
Proof. unfold samples_dict. by simplify_map_eq. Qed.

Lemma samples_dict_val (tr te va : list (Sample F)) :
  samples_dict tr te va !! "val" = Some va.
Proof. unfold samples_dict. by simplify_map_eq. Qed.

Lemma pools_dict_train (p1 p2 p3 : tensor2 F) :
  pools_dict p1 p2 p3 !! "train" = Some p1.
Proof. unfold pools_dict. by simplify_map_eq. Qed.

Lemma pools_dict_test (p1 p2 p3 : tensor2 F) :
  pools_dict p1 p2 p3 !! "test" = Some p2.
Proof. unfold pools_dict. by simplify_map_eq. Qed.

Lemma pools_dict_val (p1 p2 p3 : tensor2 F) :
  pools_dict p1 p2 p3 !! "val" = Some p3.
Proof. unfold pools_dict. by simplify_map_eq. Qed.

Lemma rays_dataset_Ok (tr te va : list (Sample F)) (cp : CamParams F) rays :
  rays_dataset (samples_dict tr te va) cp = Ok rays →
  ∃ p1 p2 p3,
    rays_split (rays_single_cam cp) (cam_H cp) (cam_W cp) tr = Ok p1 ∧
    rays_split (rays_single_cam cp) (cam_H cp) (cam_W cp) te = Ok p2 ∧
    rays_split (rays_single_cam cp) (cam_H cp) (cam_W cp) va = Ok p3 ∧
    rays = pools_dict p1 p2 p3.
Proof.
  unfold rays_dataset, dict_get. simpl.
  rewrite samples_dict_train, samples_dict_test, samples_dict_val. simpl.
  destruct (rays_split _ _ _ tr) as [p1|]; simpl; [|done].
  destruct (rays_split _ _ _ te) as [p2|]; simpl; [|done].
  destruct (rays_split _ _ _ va) as [p3|]; simpl; [|done].
  intros [= <-]. by exists p1, p2, p3.
Qed.

(** Everything a successful construction went through. *)
Lemma init_Ok (ds : Dataset F) (eng : RayGenerator F) :
  RayGenerator_init ds = Ok eng →
  ∃ tr te va s p1 p2 p3,
    let cp := intrinsics (img s) (camera_angle_x (train_transform ds)) in
    mapM_result (load_sample (train_img_paths ds) (train_transform ds))
                (seq 0 (length (train_img_paths ds))) = Ok tr ∧
    mapM_result (load_sample (val_img_paths ds) (val_transform ds))
                (seq 0 (length (val_img_paths ds))) = Ok va ∧
    mapM_result (load_test_sample ds) (seq 0 (length (test_img_paths ds))) = Ok te ∧
    last te = Some s ∧
    load_data ds = Ok (samples_dict tr te va, cp) ∧
    rays_split (rays_single_cam cp) (cam_H cp) (cam_W cp) tr = Ok p1 ∧
    rays_split (rays_single_cam cp) (cam_H cp) (cam_W cp) te = Ok p2 ∧
    rays_split (rays_single_cam cp) (cam_H cp) (cam_W cp) va = Ok p3 ∧
    eng = {| self_samples := samples_dict tr te va;
             self_cam_params := cp;
             self_H := cam_H cp;
             self_W := cam_W cp;
             self_f := cam_f cp;
             self_rays_dataset := pools_dict p1 p2 p3 |}.
Proof.
  unfold RayGenerator_init. intros Hinit.
  apply bind_Ok_inv in Hinit as ([samples cp] & Hload & Hinit).
  apply bind_Ok_inv in Hinit as (rays & Hrays & Hinit).
  injection Hinit as <-.
  pose proof Hload as Hload'. rewrite load_data_eq in Hload'.
  apply bind_Ok_inv in Hload' as (tr & Htr & Hload').
  apply bind_Ok_inv in Hload' as (va & Hva & Hload').
  apply bind_Ok_inv in Hload' as (te & Hte & Hload').
  destruct (last te) as [s|] eqn:Hlast; [|done].
  injection Hload' as <- <-.
  apply rays_dataset_Ok in Hrays as (p1 & p2 & p3 & Hp1 & Hp2 & Hp3 & ->).
  exists tr, te, va, s, p1, p2, p3. naive_solver.
Qed.

(** The three splits of a constructed engine, and no other key. *)
Lemma init_split (ds : Dataset F) (eng : RayGenerator F) (k : string) :
  RayGenerator_init ds = Ok eng → k ∈ keys →
  ∃ smp pool,
    self_samples eng !! k = Some smp ∧
    self_rays_dataset eng !! k = Some pool ∧
    length smp = length (split_paths ds k) ∧
    rays_split (rays_single_cam (self_cam_params eng))
               (cam_H (self_cam_params eng)) (cam_W (self_cam_params eng)) smp
    = Ok pool.
Proof.
  intros (tr & te & va & s & p1 & p2 & p3 & Htr & Hva & Hte & _ & _ &
          Hp1 & Hp2 & Hp3 & ->)%init_Ok Hk.
  apply mapM_result_length in Htr, Hva, Hte. rewrite length_seq in Htr, Hva, Hte.
  unfold keys in Hk. rewrite !elem_of_cons in Hk.
  destruct Hk as [->|[->|[->|Hk]]]; [| | |by apply elem_of_nil in Hk]; simpl.
  - exists tr, p1. rewrite samples_dict_train, pools_dict_train.
    repeat split; [exact Htr|done].
  - exists te, p2. rewrite samples_dict_test, pools_dict_test.
    repeat split; [exact Hte|done].
  - exists va, p3. rewrite samples_dict_val, pools_dict_val.
    repeat split; [exact Hva|done].
Qed.

Lemma init_other_key (ds : Dataset F) (eng : RayGenerator F) (k : string) :
  RayGenerator_init ds = Ok eng → k ∉ keys →
  self_rays_dataset eng !! k = None.
Proof.
  intros (tr & te & va & s & p1 & p2 & p3 & _ & _ & _ & _ & _ & _ & _ & _ & ->)%init_Ok Hk.
  unfold keys in Hk. rewrite !not_elem_of_cons in Hk.
  destruct Hk as (? & ? & ? & _). simpl. unfold pools_dict.
  by rewrite !lookup_insert_ne, lookup_empty.
Qed.

(** A split with fewer pose entries than images stops [load_data]. *)
Lemma load_data_fewer_frames (ds : Dataset F) (k : string) :
  k ∈ keys →
  length (frames (split_transform ds k)) < length (split_paths ds k) →
  is_Raise (load_data ds).
Proof.
  intros Hk Hlt. rewrite load_data_eq.
  unfold keys in Hk. rewrite !elem_of_cons in Hk.
  destruct Hk as [->|[->|[->|Hk]]]; [| | |by apply elem_of_nil in Hk];
    unfold split_transform, split_paths in Hlt; repeat case_decide; try done.
  - destruct (mapM_result_seq_Raise
                (load_sample (train_img_paths ds) (train_transform ds)) _ _ Hlt)
      as [e ->]; [by apply load_sample_short|]. by exists e.
  - destruct (mapM_result _ (seq 0 (length (train_img_paths ds)))); simpl; [|by eexists].
    destruct (mapM_result _ (seq 0 (length (val_img_paths ds)))); simpl; [|by eexists].
    destruct (mapM_result_seq_Raise (load_test_sample ds) _ _ Hlt)
      as [e ->]; [by apply load_test_sample_short|]. by exists e.
  - destruct (mapM_result _ (seq 0 (length (train_img_paths ds)))); simpl; [|by eexists].
    destruct (mapM_result_seq_Raise
                (load_sample (val_img_paths ds) (val_transform ds)) _ _ Hlt)
      as [e ->]; [by apply load_sample_short|]. by exists e.
Qed.

End Construction.

(** ** Drawing and gathering *)

Section Sampling.

Context {F : Type} `{FloatOps F}.
Context {G : Type} `{RandomGen G}.
Context `{Allocator}.

Lemma alloc_Ok (numel itemsize : Z) :
  (numel * itemsize ≤ Z.min storage_max (Z.of_N max_bytes))%Z →
  alloc numel itemsize = Ok tt.
Proof.
  intros Hfit. unfold alloc.
  rewrite !bool_decide_eq_false_2; [done|lia|lia].
Qed.

Lemma alloc_overflow (numel itemsize : Z) :
  (storage_max < numel * itemsize)%Z →
  alloc numel itemsize = Raise RuntimeError.
Proof. intros Hbig. unfold alloc. by rewrite bool_decide_eq_true_2. Qed.

Lemma within_limits_int64 (N : Z) :
  (0 ≤ N)%Z → within_limits N → (- 2 ^ 63 ≤ N < 2 ^ 63)%Z.
Proof. unfold within_limits, storage_max. lia. Qed.

Lemma draws_length low high n (g : G) : length (draws low high n g).1 = n.
Proof.
  revert g. induction n as [|n IH]; intros g; [done|]. simpl.
  destruct (next_raw g) as [r g1]. specialize (IH g1).
  destruct (draws low high n g1) as [ids g2]. simpl in *. by f_equal.
Qed.

Lemma draws_range low high n (g : G) :
  (low < high)%Z → Forall (λ id, (low ≤ id < high)%Z) (draws low high n g).1.
Proof.
  intros Hlt. revert g. induction n as [|n IH]; intros g; [constructor|]. simpl.
  destruct (next_raw g) as [r g1]. specialize (IH g1).
  destruct (draws low high n g1) as [ids g2]. simpl in *. constructor; [|done].
  pose proof (Z.mod_pos_bound r (high - low)). lia.
Qed.

Lemma randint_Ok high N (g : G) :
  (0 ≤ N)%Z → within_limits N → (0 < high)%Z →
  randint 0 high N g
  = (Ok (draws 0 high (Z.to_nat N) g).1, (draws 0 high (Z.to_nat N) g).2).
Proof.
  intros HN Hfit Hhigh. unfold randint.
  rewrite bool_decide_eq_true_2 by (by apply within_limits_int64).
  rewrite bool_decide_eq_false_2 by lia.
  rewrite alloc_Ok by (unfold within_limits in Hfit; lia).
  rewrite bool_decide_eq_true_2 by lia.
  by destruct (draws 0 high (Z.to_nat N) g).
Qed.

Lemma randint_Ok_inv low high N (g g' : G) ids :
  randint low high N g = (Ok ids, g') →
  (low < high)%Z ∧ ids = (draws low high (Z.to_nat N) g).1.
Proof.
  unfold randint. case_bool_decide; [|done]. case_bool_decide; [done|].
  destruct (alloc N 8); [|done]. case_bool_decide as Hlt; [|done].
  destruct (draws low high (Z.to_nat N) g) as [ids0 g0]. by intros [= <- _].
Qed.

(** A negative size: refused as a size when it is a 64-bit integer, as
    an argument when it is not. *)
Lemma randint_negative low high N (g : G) :
  (N < 0)%Z →
  randint low high N g
  = (Raise (if bool_decide (- 2 ^ 63 ≤ N)%Z then RuntimeError else TypeError), g).
Proof.
  intros HN. unfold randint. case_bool_decide as Hint.
  - rewrite bool_decide_eq_true_2 by done. by rewrite bool_decide_eq_true_2 by lia.
  - by rewrite bool_decide_eq_false_2 by lia.
Qed.

(** A size of 2^60 or more: the 8-byte ids alone overflow the storage
    size, whatever the allocator. *)
Lemma randint_overflow low high N (g : G) :
  (2 ^ 60 ≤ N < 2 ^ 63)%Z → randint low high N g = (Raise RuntimeError, g).
Proof.
  intros HN. unfold randint.
  rewrite bool_decide_eq_true_2 by lia. rewrite bool_decide_eq_false_2 by lia.
  by rewrite alloc_overflow by (unfold storage_max; lia).
Qed.

Lemma index_col_Ok (row : list F) (id : Z) :
  (0 ≤ id < Z.of_nat (length row))%Z →
  index_col row id = Ok (nth (Z.to_nat id) row fzero).
Proof.
  intros Hid. unfold index_col, getitem. rewrite bool_decide_eq_true_2 by done.
  destruct (lookup_lt_is_Some_2 row (Z.to_nat id)) as [x Hx]; [lia|].
  rewrite Hx. by rewrite (nth_lookup_Some _ _ _ _ Hx).
Qed.

Lemma gather_Ok (data : tensor2 F) (ids : list Z) w :
  Forall (λ r, length r = w) data →
  Forall (λ id, (0 ≤ id < Z.of_nat w)%Z) ids →
  mapM_result (λ row, mapM_result (index_col row) ids) data
  = Ok (map (λ row, map (λ id, nth (Z.to_nat id) row fzero) ids) data).
Proof.
  intros Hdata Hids. apply mapM_result_total.
  intros row Hrow. apply mapM_result_total. intros id Hid.
  rewrite Forall_forall in Hdata. rewrite Forall_forall in Hids.
  apply index_col_Ok. rewrite (Hdata row Hrow). by apply Hids.
Qed.

Lemma index_select_Ok (data : tensor2 F) (ids : list Z) w :
  Forall (λ r, length r = w) data →
  Forall (λ id, (0 ≤ id < Z.of_nat w)%Z) ids →
  (Z.of_nat (length data) * Z.of_nat (length ids) * 4
   ≤ Z.min storage_max (Z.of_N max_bytes))%Z →
  index_select data ids
  = Ok (map (λ row, map (λ id, nth (Z.to_nat id) row fzero) ids) data).
Proof.
  intros Hdata Hids Hfit. unfold index_select.
  rewrite alloc_Ok by done. simpl. by apply (gather_Ok _ _ w).
Qed.

Lemma index_select_Ok_inv (data sel : tensor2 F) (ids : list Z) w :
  Forall (λ r, length r = w) data →
  Forall (λ id, (0 ≤ id < Z.of_nat w)%Z) ids →
  index_select data ids = Ok sel →
  sel = map (λ row, map (λ id, nth (Z.to_nat id) row fzero) ids) data.
Proof.
  intros Hdata Hids Hsel. unfold index_select in Hsel.
  apply bind_Ok_inv in Hsel as (_ & _ & Hsel).
  rewrite (gather_Ok _ _ w) in Hsel by done. by injection Hsel as <-.
Qed.

(** Gathering the columns [ids] and transposing gives, row by row, the
    pool's columns in the order of [ids]. *)
Lemma transpose_gather (data : tensor2 F) (ids : list Z) :
  transpose (length ids)
            (map (λ row, map (λ id, nth (Z.to_nat id) row fzero) ids) data)
  = map (λ id, column (Z.to_nat id) data) ids.
Proof.
  unfold transpose. rewrite <- (map_nth_seq (λ id, column (Z.to_nat id) data) ids 0%Z).
  apply map_ext_in. intros k Hk%in_seq. unfold column. rewrite map_map.
  apply map_ext. intros row.
  destruct (lookup_lt_is_Some_2 ids k) as [id Hid]; [lia|].
  rewrite (nth_lookup_Some _ _ 0%Z _ Hid).
  apply nth_lookup_Some.
  by apply (map_lookup_Some (λ id, nth (Z.to_nat id) row fzero)).
Qed.

(** A call on a pool of six rows of positive width, for [N >= 0] within
    the allocation limits. *)
Lemma select_Ok (eng : RayGenerator F) (g : G) mode N (data : tensor2 F) smp :
  self_rays_dataset eng !! mode = Some data →
  self_samples eng !! mode = Some smp →
  length data = 6 →
  Forall (λ r, length r = ncols data) data →
  0 < ncols data → (0 ≤ N)%Z → within_limits N →
  let d := draws 0 (Z.of_nat (ncols data)) (Z.to_nat N) g in
  select {| engine := eng; gen := g |} mode N
  = (Ok (map (λ id, column (Z.to_nat id) data) d.1, d.1),
     {| engine := eng; gen := d.2 |}).
Proof.
  intros Hdata Hsmp H6 Hrows Hw HN Hfit d. unfold select, dict_get. simpl.
  rewrite Hdata, Hsmp. rewrite randint_Ok; [|done|done|lia]. fold d.
  rewrite (index_select_Ok _ _ (ncols data)); [|done| |].
  - by rewrite transpose_gather.
  - apply draws_range. lia.
  - unfold d. rewrite draws_length, H6. unfold within_limits in Hfit. lia.
Qed.

(** What a call that returns has returned. *)
Lemma select_Ok_inv (eng : RayGenerator F) (g : G) mode N (data : tensor2 F)
    rays ids w' :
  self_rays_dataset eng !! mode = Some data →
  Forall (λ r, length r = ncols data) data →
  select {| engine := eng; gen := g |} mode N = (Ok (rays, ids), w') →
  Forall (λ id, (0 ≤ id < Z.of_nat (ncols data))%Z) ids ∧
  rays = map (λ id, column (Z.to_nat id) data) ids.
Proof.
  intros Hdata Hrows. unfold select, dict_get. simpl. rewrite Hdata.
  destruct (self_samples eng !! mode) as [smp|]; [|done].
  destruct (randint _ _ _ _) as [[ids0|e] g0] eqn:Hrand; [|done].
  apply randint_Ok_inv in Hrand as [Hlt ->].
  pose proof (draws_range 0 (Z.of_nat (ncols data)) (Z.to_nat N) g Hlt) as Hrange.
  destruct (index_select data _) as [sel|e] eqn:Hsel; [|done].
  apply (index_select_Ok_inv _ _ _ (ncols data) Hrows Hrange) in Hsel as ->.
  intros [= <- <- _]. split; [done|]. by rewrite transpose_gather.
Qed.

(** Ids without repetition drawn from [0, w) are at most [w]. *)
Lemma NoDup_range_length (ids : list Z) (w : nat) :
  Forall (λ id, (0 ≤ id < Z.of_nat w)%Z) ids → NoDup ids → length ids ≤ w.
Proof.
  intros Hrange Hnodup.
  transitivity (length (map Z.of_nat (seq 0 w)));
    [|by rewrite length_map, length_seq].
  apply NoDup_incl_length; [by apply NoDup_ListNoDup|].
  intros id Hid. rewrite Forall_forall in Hrange.
  apply list_elem_of_In, Hrange in Hid.
  apply in_map_iff. exists (Z.to_nat id). split; [lia|]. apply in_seq. lia.
Qed.

(** A call on a constructed engine over non-empty images. *)
Lemma select_constructed (ds : Dataset F) (eng : RayGenerator F) (k : string)
    (N : Z) (g : G) :
  RayGenerator_init ds = Ok eng →
  0 < self_H eng → 0 < self_W eng →
  k ∈ keys → (0 ≤ N)%Z → within_limits N →
  ∃ pool,
    self_rays_dataset eng !! k = Some pool ∧
    length pool = 6 ∧
    0 < ncols pool ∧
    let d := draws 0 (Z.of_nat (ncols pool)) (Z.to_nat N) g in
    select {| engine := eng; gen := g |} k N
    = (Ok (map (λ id, column (Z.to_nat id) pool) d.1, d.1),
       {| engine := eng; gen := d.2 |}).
Proof.
  intros Hinit HH HW Hk HN Hfit.
  destruct (init_split ds eng k Hinit Hk) as (smp & pool & Hsmp & Hpool & _ & Hsplit).
  destruct (rays_split_shape _ _ _ _ _ Hsplit) as (H6 & Hrows & Hpos).
  assert (0 < ncols pool) as Hw.
  { apply Hpos. apply init_Ok in Hinit as (?&?&?&?&?&?&?&_&_&_&_&_&_&_&_&->).
    simpl in *. lia. }
  exists pool. split; [done|]. split; [done|]. split; [done|].
  by apply (select_Ok eng g k N pool smp).
Qed.

Lemma within_limits_0 : within_limits 0.
Proof. unfold within_limits, storage_max. lia. Qed.

End Sampling.

(** * The ray pool and the sampler *)

Section Claims.

Context {F : Type} `{FloatOps F}.
Context {G : Type} `{RandomGen G}.
Context `{Allocator}.

(** C1: For a constructed engine and each split with B loaded images
    (poses reducing to 3 x 4), the pool of the split is a 6 x (B*H*W)
    array; for every image index b and pixel index p, column b*H*W + p
    has as its first three rows the translation of image b's pose and as
    its last three rows the product of image b's own 3 x 3 rotation with
    column p of the shared camera-space basis. *)
Theorem C1_pool_layout (ds : Dataset F) (eng : RayGenerator F) (k : string)
    (smp : list (Sample F)) :
  RayGenerator_init ds = Ok eng →
  k ∈ keys →
  self_samples eng !! k = Some smp →
  Forall (λ s, pose_ok (transform s)) smp →
  let cp := self_cam_params eng in
  let B := length smp in
  let HW := cam_H cp * cam_W cp in
  ∃ pool,
    self_rays_dataset eng !! k = Some pool ∧
    B = length (split_paths ds k) ∧
    length pool = 6 ∧
    Forall (λ row, length row = B * HW) pool ∧
    ∀ b s p, smp !! b = Some s → p < HW →
      take 3 (column (b * HW + p) pool) = translation (transform s) ∧
      drop 3 (column (b * HW + p) pool)
      = matvec (rotation (transform s)) (column p (rays_single_cam cp)).
Proof.
  intros Hinit Hk Hsmp Hposes cp B HW.
  destruct (init_split ds eng k Hinit Hk) as (smp' & pool & Hsmp' & Hpool & HB & Hsplit).
  rewrite Hsmp in Hsmp'. injection Hsmp' as <-.
  exists pool. split; [done|]. split; [done|].
  destruct (rays_split_shape _ _ _ _ _ Hsplit) as (H6 & _ & _).
  destruct (rays_split_layout _ _ _ _ _ (rays_single_cam_length cp)
              (rays_single_cam_rows cp) Hposes Hsplit) as (_ & Hrows & Hcol).
  split; [done|]. split; [done|].
  intros b s p Hb Hp. fold cp HW in Hcol. rewrite (Hcol b s p Hb Hp).
  assert (length (translation (transform s)) = 3) as Ht.
  { rewrite Forall_forall in Hposes.
    destruct (Hposes s (list_elem_of_lookup_2 _ _ _ Hb)) as [Hlen _].
    unfold translation, column. rewrite length_map, length_take. lia. }
  split.
  - by rewrite take_app_length' by done.
  - by rewrite drop_app_length' by done.
Qed.

(** C2: For a constructed engine over non-empty images, every valid split
    and every positive N within the allocation limits, [select] returns
    exactly N rows and N ids; every id lies in [0, poolWidth); each row
    has six components and row i is column ids[i] of the split's pool, in
    the order of ids. *)
Theorem C2_select_rows (ds : Dataset F) (eng : RayGenerator F) (k : string)
    (N : Z) (g : G) :
  RayGenerator_init ds = Ok eng →
  0 < self_H eng → 0 < self_W eng →
  k ∈ keys → (0 < N)%Z → within_limits N →
  ∃ pool rays ids g',
    self_rays_dataset eng !! k = Some pool ∧
    select {| engine := eng; gen := g |} k N
    = (Ok (rays, ids), {| engine := eng; gen := g' |}) ∧
    length rays = Z.to_nat N ∧
    length ids = Z.to_nat N ∧
    Forall (λ id, (0 ≤ id < Z.of_nat (ncols pool))%Z) ids ∧
    Forall (λ row, length row = 6) rays ∧
    ∀ i id, ids !! i = Some id → rays !! i = Some (column (Z.to_nat id) pool).
Proof.
  intros Hinit HH HW Hk HN Hfit.
  destruct (select_constructed ds eng k N g Hinit HH HW Hk ltac:(lia) Hfit)
    as (pool & Hpool & H6 & Hw & Hsel).
  cbv zeta in Hsel.
  set (d := draws 0 (Z.of_nat (ncols pool)) (Z.to_nat N) g) in *.
  exists pool, (map (λ id, column (Z.to_nat id) pool) d.1), d.1, d.2.
  split; [done|]. split; [done|].
  rewrite length_map. unfold d at 1 2. rewrite draws_length.
  split; [done|]. split; [done|].
  split; [apply draws_range; lia|]. split.
  - apply Forall_map, Forall_forall. intros id _. simpl.
    unfold column. by rewrite length_map.
  - intros i id Hi. by apply (map_lookup_Some (λ id, column (Z.to_nat id) pool)).
Qed.

(** C3 (amended): If a split lists fewer pose entries than it has loaded
    images, construction fails while loading, before any pool is built.
    Pose entries beyond the number of images are ignored: construction
    gives the same result as on the dataset with those entries removed. *)
Theorem C3_fewer_poses_fail_extra_ignored (ds : Dataset F) :
  (∀ k, k ∈ keys →
        length (frames (split_transform ds k)) < length (split_paths ds k) →
        is_Raise (load_data ds) ∧ is_Raise (RayGenerator_init ds)) ∧
  RayGenerator_init (drop_extra_frames ds) = RayGenerator_init ds.
Proof.
  split.
  - intros k Hk Hlt.
    pose proof (load_data_fewer_frames ds k Hk Hlt) as Hload.
    split; [done|by apply init_Raise].
  - unfold RayGenerator_init. by rewrite load_data_drop_extra.
Qed.

(** C4: For a constructed engine, every split argument outside
    {train, test, val} and every N, [select] raises an error (the dict's
    KeyError) and returns no rays. *)
Theorem C4_invalid_split (ds : Dataset F) (eng : RayGenerator F) (k : string)
    (N : Z) (g : G) :
  RayGenerator_init ds = Ok eng →
  k ∉ keys →
  select {| engine := eng; gen := g |} k N
  = (Raise KeyError, {| engine := eng; gen := g |}).
Proof.
  intros Hinit Hk. unfold select, dict_get. simpl.
  by rewrite (init_other_key ds eng k Hinit Hk).
Qed.

(** C5 (amended): For a constructed engine over non-empty images, every
    valid split and every positive N within the allocation limits, also
    beyond the pool width, [select] succeeds with N ids: the pool width
    is no bound on N.  When N exceeds the pool width the batch does
    contain a repeated id. *)
Theorem C5_no_bound_by_pool_width (ds : Dataset F) (eng : RayGenerator F)
    (k : string) (N : Z) (g : G) :
  RayGenerator_init ds = Ok eng →
  0 < self_H eng → 0 < self_W eng →
  k ∈ keys → (0 < N)%Z → within_limits N →
  ∃ pool rays ids w',
    self_rays_dataset eng !! k = Some pool ∧
    select {| engine := eng; gen := g |} k N = (Ok (rays, ids), w') ∧
    length ids = Z.to_nat N ∧
    ((Z.of_nat (ncols pool) < N)%Z → ¬ NoDup ids).
Proof.
  intros Hinit HH HW Hk HN Hfit.
  destruct (select_constructed ds eng k N g Hinit HH HW Hk ltac:(lia) Hfit)
    as (pool & Hpool & H6 & Hw & Hsel).
  cbv zeta in Hsel.
  set (d := draws 0 (Z.of_nat (ncols pool)) (Z.to_nat N) g) in *.
  exists pool, (map (λ id, column (Z.to_nat id) pool) d.1), d.1,
         {| engine := eng; gen := d.2 |}.
  split; [done|]. split; [done|].
  assert (length d.1 = Z.to_nat N) as Hlen by apply draws_length.
  split; [done|]. intros Hbig Hnodup.
  apply (NoDup_range_length _ (ncols pool)) in Hnodup; [lia|].
  apply draws_range. lia.
Qed.

(** C6: The intrinsics of a constructed engine are [H, W, f] with
    f = W / (2 * tan(fov / 2)), fov the camera_angle_x of the training
    transforms, H and W the shape of a decoded image (the last test
    image); this one value is stored in the engine, and the pool of every
    split is built from the basis of these same intrinsics. *)
Theorem C6_shared_intrinsics (ds : Dataset F) (eng : RayGenerator F) :
  RayGenerator_init ds = Ok eng →
  ∃ m,
    last (test_img_paths ds) = Some (Some m) ∧
    let fov := camera_angle_x (train_transform ds) in
    let cp := {| cam_H := mat_rows m;
                 cam_W := mat_cols m;
                 cam_f := fdiv (of_int (Z.of_nat (mat_cols m)))
                               (fmul (of_int 2) (ftan (fdiv fov (of_int 2)))) |} in
    self_cam_params eng = cp ∧
    (self_H eng, self_W eng, self_f eng) = (cam_H cp, cam_W cp, cam_f cp) ∧
    ∀ k, k ∈ keys →
      ∃ smp pool,
        self_samples eng !! k = Some smp ∧
        self_rays_dataset eng !! k = Some pool ∧
        rays_split (rays_single_cam cp) (cam_H cp) (cam_W cp) smp = Ok pool.
Proof.
  intros Hinit.
  pose proof Hinit as (tr & te & va & s & p1 & p2 & p3 & _ & _ & _ & _ & Hload &
                       _ & _ & _ & Heng)%init_Ok.
  apply load_data_Ok in Hload as (m & Hm & Hcp).
  exists m. split; [done|]. cbv zeta. rewrite <- Hcp.
  split; [by rewrite Heng|]. split; [by rewrite Heng|].
  intros k Hk.
  destruct (init_split ds eng k Hinit Hk) as (smp & pool & Hsmp & Hpool & _ & Hsplit).
  exists smp, pool. split; [done|]. split; [done|].
  by rewrite Heng in Hsplit.
Qed.

(** C7: A call of [select], whatever the split and N, leaves the engine
    as it was: samples, cam_params (H, W, f) and the three pools are the
    same after the call; only the generator may have advanced. *)
Theorem C7_select_frame (w : World F G) (mode : string) (N : Z) :
  let w' := (select w mode N).2 in
  engine w' = engine w ∧
  self_samples (engine w') = self_samples (engine w) ∧
  self_cam_params (engine w') = self_cam_params (engine w) ∧
  (self_H (engine w'), self_W (engine w'), self_f (engine w'))
  = (self_H (engine w), self_W (engine w), self_f (engine w)) ∧
  self_rays_dataset (engine w') = self_rays_dataset (engine w).
Proof.
  assert (engine (select w mode N).2 = engine w) as Heq.
  { unfold select.
    destruct (dict_get (self_rays_dataset (engine w)) mode) as [data|]; [|done].
    destruct (dict_get (self_samples (engine w)) mode) as [smp|]; [|done].
    destruct (randint _ _ _ _) as [[ids|] g']; [|done].
    by destruct (index_select data ids). }
  cbv zeta. by rewrite Heq.
Qed.

(** C8: For a constructed engine over non-empty images and every valid
    split, [select] with N = 0 raises no error and returns a rays array
    with zero rows and an empty id sequence. *)
Theorem C8_select_zero (ds : Dataset F) (eng : RayGenerator F) (k : string) (g : G) :
  RayGenerator_init ds = Ok eng →
  0 < self_H eng → 0 < self_W eng →
  k ∈ keys →
  select {| engine := eng; gen := g |} k 0
  = (Ok ([], []), {| engine := eng; gen := g |}).
Proof.
  intros Hinit HH HW Hk.
  by destruct (select_constructed ds eng k 0 g Hinit HH HW Hk ltac:(lia)
                 within_limits_0)
    as (pool & _ & _ & _ & ->).
Qed.

(** C9: Construction needs a non-empty test split: with no test image
    [load_data] (and so construction) fails instead of returning samples
    and intrinsics; and when [load_data] returns, the H and W of
    cam_params are the shape of the last decoded test image. *)
Theorem C9_test_split_required (ds : Dataset F) :
  (test_img_paths ds = [] →
   is_Raise (load_data ds) ∧ is_Raise (RayGenerator_init ds)) ∧
  (∀ samples cp, load_data ds = Ok (samples, cp) →
     ∃ m, last (test_img_paths ds) = Some (Some m) ∧
          cam_H cp = mat_rows m ∧ cam_W cp = mat_cols m).
Proof.
  split.
  - intros Hempty. pose proof (load_data_empty_test ds Hempty) as Hload.
    split; [done|by apply init_Raise].
  - intros samples cp (m & Hm & ->)%load_data_Ok. by exists m.
Qed.

(** C10: For a constructed engine, every valid split and every strictly
    negative N, [select] raises an error (the index draw refuses a
    negative count: a RuntimeError for a 64-bit N, a TypeError for an N
    below -2^63) and returns no rays; the engine, and with it samples and
    pools, and the generator are unchanged by the failed call. *)
Theorem C10_select_negative (ds : Dataset F) (eng : RayGenerator F) (k : string)
    (N : Z) (g : G) :
  RayGenerator_init ds = Ok eng →
  k ∈ keys → (N < 0)%Z →
  select {| engine := eng; gen := g |} k N
  = (Raise (if bool_decide (- 2 ^ 63 ≤ N)%Z then RuntimeError else TypeError),
     {| engine := eng; gen := g |}).
Proof.
  intros Hinit Hk HN.
  destruct (init_split ds eng k Hinit Hk) as (smp & pool & Hsmp & Hpool & _).
  unfold select, dict_get. simpl.
  by rewrite Hpool, Hsmp, randint_negative.
Qed.

End Claims.

(** * Further properties of loading *)

Lemma mapM_result_lookup_inv {A B} (f : A → result B) (l : list A) (bs : list B) i b :
  mapM_result f l = Ok bs → bs !! i = Some b →
  ∃ a, l !! i = Some a ∧ f a = Ok b.
Proof.
  intros Hm Hb. pose proof (mapM_result_length _ _ _ Hm) as Hlen.
  destruct (lookup_lt_is_Some_2 l i) as [a Ha].
  { rewrite <- Hlen. by eapply lookup_lt_Some. }
  destruct (mapM_result_lookup f l bs i a Hm Ha) as (b' & Hb' & Hf).
  rewrite Hb in Hb'. injection Hb' as <-. eauto.
Qed.


Section Loading.

Context {F : Type} `{FloatOps F}.

Lemma imread_rgb_Ok (file : option Mat) (im : Image F) :
  imread_rgb file = Ok im → ∃ m, file = Some m.
Proof. destruct file as [m|]; [eauto|done]. Qed.

Lemma getitem_imread_Ok (files : list (option Mat)) i (im : Image F) :
  getitem files i ≫= imread_rgb = Ok im →
  ∃ m, files !! i = Some (Some m) ∧ imread_rgb (Some m) = Ok im.
Proof.
  unfold getitem. destruct (files !! i) as [[m|]|]; try done. eauto.
Qed.

Lemma from_numpy_float_Ok (tm : list (list F)) (T : tensor2 F) :
  from_numpy_float tm = Ok T → rectangular tm = true ∧ T = map (map f32) tm.
Proof.
  unfold from_numpy_float. destruct (rectangular tm); [|done]. by intros [= <-].
Qed.

Lemma getitem_Ok {A} (l : list A) i a : getitem l i = Ok a → l !! i = Some a.
Proof. unfold getitem. destruct (l !! i); [by intros [= ->]|done]. Qed.

Lemma load_sample_Ok files (tr : Transforms F) i s :
  load_sample files tr i = Ok s →
  ∃ m fr,
    files !! i = Some (Some m) ∧ frames tr !! i = Some fr ∧
    imread_rgb (Some m) = Ok (img s) ∧
    img_depth s = None ∧ img_normal s = None ∧
    metadata s = fr ∧
    rectangular (transform_matrix fr) = true ∧
    transform s = map (map f32) (transform_matrix fr).
Proof.
  unfold load_sample. intros Hs.
  apply bind_Ok_inv in Hs as (im & (m & Hm & Him)%getitem_imread_Ok & Hs).
  apply bind_Ok_inv in Hs as (fr & Hfr%getitem_Ok & Hs).
  apply bind_Ok_inv in Hs as (T & [Hrect ->]%from_numpy_float_Ok & Hs).
  injection Hs as <-. exists m, fr. simpl. naive_solver.
Qed.

Lemma load_test_sample_Ok (ds : Dataset F) i s :
  load_test_sample ds i = Ok s →
  ∃ m md mn dp nm fr,
    test_img_paths ds !! i = Some (Some m) ∧
    test_depth_paths ds !! i = Some (Some md) ∧
    test_normal_paths ds !! i = Some (Some mn) ∧
    frames (test_transform ds) !! i = Some fr ∧
    imread_rgb (Some m) = Ok (img s) ∧
    imread_rgb (Some md) = Ok dp ∧ img_depth s = Some dp ∧
    imread_rgb (Some mn) = Ok nm ∧ img_normal s = Some nm ∧
    metadata s = fr ∧
    rectangular (transform_matrix fr) = true ∧
    transform s = map (map f32) (transform_matrix fr).
Proof.
  unfold load_test_sample. intros Hs.
  apply bind_Ok_inv in Hs as (im & (m & Hm & Him)%getitem_imread_Ok & Hs).
  apply bind_Ok_inv in Hs as (dp & (md & Hmd & Hdp)%getitem_imread_Ok & Hs).
  apply bind_Ok_inv in Hs as (nm & (mn & Hmn & Hnm)%getitem_imread_Ok & Hs).
  apply bind_Ok_inv in Hs as (fr & Hfr%getitem_Ok & Hs).
  apply bind_Ok_inv in Hs as (T & [Hrect ->]%from_numpy_float_Ok & Hs).
  injection Hs as <-. exists m, md, mn, dp, nm, fr. simpl. naive_solver.
Qed.

(** What [load_data] returns, split by split. *)
Lemma load_data_splits (ds : Dataset F) samples cp :
  load_data ds = Ok (samples, cp) →
  ∀ k, k ∈ keys →
    ∃ smp,
      samples !! k = Some smp ∧
      mapM_result (split_round ds k) (seq 0 (length (split_paths ds k))) = Ok smp.
Proof.
  rewrite load_data_eq. intros Hload k Hk.
  apply bind_Ok_inv in Hload as (tr & Htr & Hload).
  apply bind_Ok_inv in Hload as (va & Hva & Hload).
  apply bind_Ok_inv in Hload as (te & Hte & Hload).
  destruct (last te) as [s|]; [|done]. injection Hload as <- <-.
  unfold keys in Hk. rewrite !elem_of_cons in Hk.
  destruct Hk as [->|[->|[->|Hk]]]; [| | |by apply elem_of_nil in Hk].
  - exists tr. by rewrite samples_dict_train.
  - exists te. by rewrite samples_dict_test.
  - exists va. by rewrite samples_dict_val.
Qed.

(** A round that raises stops [load_data]. *)
Lemma load_data_Raise_at (ds : Dataset F) (k : string) (i : nat) :
  k ∈ keys → i < length (split_paths ds k) →
  is_Raise (split_round ds k i) → is_Raise (load_data ds).
Proof.
  intros Hk Hi Hround. destruct (load_data ds) as [[samples cp]|e] eqn:Hload;
    [|by exists e].
  destruct (load_data_splits ds samples cp Hload k Hk) as (smp & _ & Hsmp).
  destruct (mapM_result_seq_Raise (split_round ds k) _ i Hi Hround) as [e He].
  by rewrite He in Hsmp.
Qed.

(** X1: When [load_data] returns, each split has one sample per image
    path, and sample i pairs the decoded image of path i with entry i of
    the split's frames: its metadata is that entry and its transform is
    the entry's matrix rounded to single precision. *)
Theorem X1_load_data_alignment (ds : Dataset F) samples cp (k : string) :
  load_data ds = Ok (samples, cp) → k ∈ keys →
  ∃ smp,
    samples !! k = Some smp ∧
    length smp = length (split_paths ds k) ∧
    ∀ i s, smp !! i = Some s →
      ∃ m fr,
        split_paths ds k !! i = Some (Some m) ∧
        frames (split_transform ds k) !! i = Some fr ∧
        imread_rgb (Some m) = Ok (img s) ∧
        metadata s = fr ∧
        transform s = map (map f32) (transform_matrix fr).
Proof.
  intros Hload Hk.
  destruct (load_data_splits ds samples cp Hload k Hk) as (smp & Hsmp & Hm).
  exists smp. split; [done|]. split.
  { apply mapM_result_length in Hm. by rewrite length_seq in Hm. }
  intros i s Hi.
  destruct (mapM_result_lookup_inv _ _ _ _ _ Hm Hi) as (a & Ha & Hround).
  apply lookup_seq in Ha as [-> _]. simpl in Hround.
  unfold split_round in Hround. case_decide as Htest.
  - subst k.
    apply load_test_sample_Ok in Hround
      as (m & md & mn & dp & nm & fr & ? & _ & _ & ? & ? & _ & _ & _ & _ & ? & _ & ?).
    by exists m, fr.
  - apply load_sample_Ok in Hround as (m & fr & ? & ? & ? & _ & _ & ? & _ & ?).
    by exists m, fr.
Qed.

(** X2: A path of any split that [cv2.imread] cannot decode makes
    [load_data] fail; no sample list with a gap is returned. *)
Theorem X2_undecodable_image (ds : Dataset F) (k : string) (i : nat) :
  k ∈ keys → split_paths ds k !! i = Some None → is_Raise (load_data ds).
Proof.
  intros Hk Hi. apply (load_data_Raise_at ds k i Hk).
  { by eapply lookup_lt_Some. }
  unfold split_round. case_decide as Htest.
  - subst k. unfold load_test_sample, getitem.
    change (split_paths ds "test") with (test_img_paths ds) in Hi.
    rewrite Hi. by eexists.
  - unfold load_sample, getitem. rewrite Hi. by eexists.
Qed.

(** X3: Every test image needs a depth image and a normal image at its
    own index: if for some test image the entry of the depth list or of
    the normal list is missing or cannot be decoded, [load_data] fails. *)
Theorem X3_test_needs_depth_and_normal (ds : Dataset F) (i : nat) :
  i < length (test_img_paths ds) →
  (∀ m, test_depth_paths ds !! i ≠ Some (Some m)) ∨
  (∀ m, test_normal_paths ds !! i ≠ Some (Some m)) →
  is_Raise (load_data ds).
Proof.
  intros Hi Hmiss. apply (load_data_Raise_at ds "test" i).
  { unfold keys. apply list_elem_of_further, list_elem_of_here. }
  { exact Hi. }
  change (is_Raise (load_test_sample ds i)). unfold load_test_sample, getitem.
  destruct (test_img_paths ds !! i) as [[m|]|]; simpl; try by eexists.
  destruct (test_depth_paths ds !! i) as [[md|]|] eqn:Hd; simpl;
    try by eexists.
  destruct (test_normal_paths ds !! i) as [[mn|]|] eqn:Hn; simpl;
    try by eexists.
  destruct Hmiss as [Hmiss|Hmiss]; by edestruct Hmiss.
Qed.

(** X4: A frame that is read (its index is below the number of images
    of its split) and whose transform_matrix is a ragged nested list
    makes [load_data] fail. *)
Theorem X4_ragged_transform (ds : Dataset F) (k : string) (i : nat) (fr : Frame F) :
  k ∈ keys → i < length (split_paths ds k) →
  frames (split_transform ds k) !! i = Some fr →
  rectangular (transform_matrix fr) = false →
  is_Raise (load_data ds).
Proof.
  intros Hk Hi Hfr Hrag. apply (load_data_Raise_at ds k i Hk Hi).
  unfold split_round. case_decide as Htest.
  - subst k. unfold load_test_sample.
    change (frames (split_transform ds "test") !! i)
      with (frames (test_transform ds) !! i) in Hfr.
    destruct (getitem (test_img_paths ds) i ≫= imread_rgb); simpl; [|by eexists].
    destruct (getitem (test_depth_paths ds) i ≫= imread_rgb); simpl; [|by eexists].
    destruct (getitem (test_normal_paths ds) i ≫= imread_rgb); simpl; [|by eexists].
    unfold getitem. rewrite Hfr. simpl. unfold from_numpy_float. rewrite Hrag.
    by eexists.
  - unfold load_sample.
    destruct (getitem (split_paths ds k) i ≫= imread_rgb); simpl; [|by eexists].
    unfold getitem. rewrite Hfr. simpl. unfold from_numpy_float. rewrite Hrag.
    by eexists.
Qed.

End Loading.

(** * Further properties of the pool build *)

Section Building.

Context {F : Type} `{FloatOps F}.

Lemma load_data_Ok_dict (ds : Dataset F) samples cp :
  load_data ds = Ok (samples, cp) →
  ∃ tr te va,
    mapM_result (load_sample (train_img_paths ds) (train_transform ds))
                (seq 0 (length (train_img_paths ds))) = Ok tr ∧
    mapM_result (load_sample (val_img_paths ds) (val_transform ds))
                (seq 0 (length (val_img_paths ds))) = Ok va ∧
    mapM_result (load_test_sample ds) (seq 0 (length (test_img_paths ds))) = Ok te ∧
    samples = samples_dict tr te va.
Proof.
  rewrite load_data_eq. intros Hload.
  apply bind_Ok_inv in Hload as (tr & Htr & Hload).
  apply bind_Ok_inv in Hload as (va & Hva & Hload).
  apply bind_Ok_inv in Hload as (te & Hte & Hload).
  destruct (last te) as [s|]; [|done]. injection Hload as <- <-.
  by exists tr, te, va.
Qed.

Lemma rays_dataset_eq (tr te va : list (Sample F)) (cp : CamParams F) :
  rays_dataset (samples_dict tr te va) cp
  = p1 ← rays_split (rays_single_cam cp) (cam_H cp) (cam_W cp) tr;
    p2 ← rays_split (rays_single_cam cp) (cam_H cp) (cam_W cp) te;
    p3 ← rays_split (rays_single_cam cp) (cam_H cp) (cam_W cp) va;
    Ok (pools_dict p1 p2 p3).
Proof.
  unfold rays_dataset, dict_get. simpl.
  rewrite samples_dict_train, samples_dict_test, samples_dict_val. simpl.
  destruct (rays_split _ _ _ tr) as [p1|]; simpl; [|done].
  destruct (rays_split _ _ _ te) as [p2|]; simpl; [|done].
  by destruct (rays_split _ _ _ va) as [p3|].
Qed.

Lemma rays_split_nil (M : tensor2 F) Hh W :
  rays_split M Hh W [] = Raise RuntimeError.
Proof. done. Qed.

(** X5: With no train image, or no val image, construction fails, also
    when [load_data] itself returns: [torch.stack] refuses the empty list
    of transforms. *)
Theorem X5_empty_train_or_val (ds : Dataset F) :
  train_img_paths ds = [] ∨ val_img_paths ds = [] →
  is_Raise (RayGenerator_init ds).
Proof.
  intros Hempty. unfold RayGenerator_init.
  destruct (load_data ds) as [[samples cp]|e] eqn:Hload; [|by exists e].
  apply load_data_Ok_dict in Hload as (tr & te & va & Htr & Hva & _ & ->).
  simpl. rewrite rays_dataset_eq. destruct Hempty as [Hempty|Hempty].
  - rewrite Hempty in Htr. injection Htr as <-.
    rewrite rays_split_nil. by eexists.
  - rewrite Hempty in Hva. injection Hva as <-. rewrite rays_split_nil.
    destruct (rays_split _ _ _ tr); simpl; [|by eexists].
    destruct (rays_split _ _ _ te); simpl; by eexists.
Qed.

Lemma stack_same_shape (ts : list (tensor2 F)) t t1 t2 :
  stack ts = Ok t → t1 ∈ ts → t2 ∈ ts → shape2 t1 = shape2 t2.
Proof.
  unfold stack. destruct ts as [|t0 ts]; [done|].
  destruct (forallb _ ts) eqn:Hall; [|done]. intros _.
  rewrite forallb_forall in Hall.
  assert (∀ u, u ∈ t0 :: ts → shape2 u = shape2 t0) as Hshape.
  { intros u [->|Hu]%elem_of_cons; [done|].
    apply list_elem_of_In, Hall in Hu. by apply bool_decide_eq_true in Hu. }
  intros H1 H2. by rewrite (Hshape t1 H1), (Hshape t2 H2).
Qed.

(** X6: Two poses of different shape in one split (say a 3 x 4 beside a
    4 x 4) stop the pool build at [torch.stack] with a RuntimeError. *)
Theorem X6_mixed_pose_shapes (M : tensor2 F) (Hh W : nat) (smp : list (Sample F))
    (s1 s2 : Sample F) :
  s1 ∈ smp → s2 ∈ smp →
  shape2 (transform s1) ≠ shape2 (transform s2) →
  rays_split M Hh W smp = Raise RuntimeError.
Proof.
  intros H1 H2 Hne. unfold rays_split.
  destruct (stack (map transform smp)) as [t|e] eqn:Hstack.
  - exfalso. apply Hne.
    apply (stack_same_shape _ _ _ _ Hstack); by apply list_elem_of_fmap_2.
  - simpl. f_equal. unfold stack in Hstack.
    destruct (map transform smp) as [|t0 ts]; [by injection Hstack|].
    destruct (forallb _ ts); [done|by injection Hstack].
Qed.

Lemma init_other_sample_key (ds : Dataset F) (eng : RayGenerator F) (k : string) :
  RayGenerator_init ds = Ok eng → k ∉ keys → self_samples eng !! k = None.
Proof.
  intros (tr & te & va & s & p1 & p2 & p3 & _ & _ & _ & _ & _ & _ & _ & _ & ->)%init_Ok Hk.
  unfold keys in Hk. rewrite !not_elem_of_cons in Hk.
  destruct Hk as (? & ? & ? & _). simpl. unfold samples_dict.
  by rewrite !lookup_insert_ne, lookup_empty.
Qed.

(** X10: In a constructed engine both dicts have exactly the keys
    train, test and val, and every pool, whatever the shape of the poses
    it was built from, has six rows of one common width. *)
Theorem X10_engine_dicts (ds : Dataset F) (eng : RayGenerator F) (k : string) :
  RayGenerator_init ds = Ok eng →
  (is_Some (self_samples eng !! k) ↔ k ∈ keys) ∧
  (is_Some (self_rays_dataset eng !! k) ↔ k ∈ keys) ∧
  ∀ pool, self_rays_dataset eng !! k = Some pool →
    length pool = 6 ∧ Forall (λ row, length row = ncols pool) pool.
Proof.
  intros Hinit. destruct (decide (k ∈ keys)) as [Hk|Hk].
  - destruct (init_split ds eng k Hinit Hk) as (smp & pool & Hsmp & Hpool & _ & Hsplit).
    destruct (rays_split_shape _ _ _ _ _ Hsplit) as (H6 & Hrows & _).
    rewrite Hsmp, Hpool. split; [by split|]. split; [by split|].
    intros pool' Heq. pose proof (eq_trans (eq_sym Hpool) Heq) as Heq'.
    injection Heq' as Heq'. by subst pool'.
  - pose proof (init_other_sample_key ds eng k Hinit Hk) as Hs.
    pose proof (init_other_key ds eng k Hinit Hk) as Hp.
    split; [split; [|done]|split; [split; [|done]|]].
    + intros [x Hx]. pose proof (eq_trans (eq_sym Hs) Hx). discriminate.
    + intros [x Hx]. pose proof (eq_trans (eq_sym Hp) Hx). discriminate.
    + intros x Hx. pose proof (eq_trans (eq_sym Hp) Hx). discriminate.
Qed.

(** *** The pose shapes a pool build accepts *)

Lemma rectangular_rows {A} (m : list (list A)) (r : list A) :
  rectangular m = true → m !! 0 = Some r →
  Forall (λ row, length row = length r) m.
Proof.
  destruct m as [|r0 rs]; [done|]. simpl. intros Hall [= <-].
  constructor; [done|]. apply Forall_forall. intros row Hrow.
  rewrite forallb_forall in Hall.
  apply list_elem_of_In, Hall in Hrow. by apply bool_decide_eq_true in Hrow.
Qed.


Lemma split_round_Ok (ds : Dataset F) (k : string) i s :
  split_round ds k i = Ok s →
  ∃ fr, frames (split_transform ds k) !! i = Some fr ∧
        rectangular (transform_matrix fr) = true ∧
        transform s = map (map f32) (transform_matrix fr).
Proof.
  unfold split_round. case_decide as Htest.
  - subst k. intros (m & md & mn & dp & nm & fr & _ & _ & _ & Hfr & _ & _ & _ & _ & _ &
                     _ & Hrect & HT)%load_test_sample_Ok.
    by exists fr.
  - intros (m & fr & _ & Hfr & _ & _ & _ & _ & Hrect & HT)%load_sample_Ok.
    by exists fr.
Qed.

(** The samples of a constructed engine are the rounds of its split. *)
Lemma init_rounds (ds : Dataset F) (eng : RayGenerator F) (k : string) smp :
  RayGenerator_init ds = Ok eng → k ∈ keys →
  self_samples eng !! k = Some smp →
  mapM_result (split_round ds k) (seq 0 (length (split_paths ds k))) = Ok smp.
Proof.
  intros Hinit Hk Hsmp.
  pose proof Hinit as (tr & te & va & s & p1 & p2 & p3 & _ & _ & _ & _ & Hload &
                       _ & _ & _ & Heng)%init_Ok.
  destruct (load_data_splits ds _ _ Hload k Hk) as (smp' & Hsmp' & Hm).
  rewrite Heng in Hsmp. simpl in Hsmp.
  pose proof (eq_trans (eq_sym Hsmp) Hsmp') as Heq. by injection Heq as ->.
Qed.

Lemma init_rectangular (ds : Dataset F) (eng : RayGenerator F) (k : string) smp s r :
  RayGenerator_init ds = Ok eng → k ∈ keys →
  self_samples eng !! k = Some smp → s ∈ smp →
  transform s !! 0 = Some r →
  Forall (λ row, length row = length r) (transform s).
Proof.
  intros Hinit Hk Hsmp [i Hi]%list_elem_of_lookup Hr.
  pose proof (init_rounds ds eng k smp Hinit Hk Hsmp) as Hm.
  destruct (mapM_result_lookup_inv _ _ _ _ _ Hm Hi) as (a & _ & Hround).
  apply split_round_Ok in Hround as (fr & _ & Hrect & HT).
  rewrite HT in Hr |- *.
  destruct (transform_matrix fr) as [|r0 rs] eqn:Htm; [done|].
  simpl in Hr. injection Hr as <-.
  pose proof (rectangular_rows (r0 :: rs) r0 Hrect eq_refl) as Hrows.
  apply Forall_map. eapply Forall_impl; [exact Hrows|].
  intros row Hrow. simpl. by rewrite !length_map.
Qed.

Lemma expand_dim_inv {A} n (l l' : list A) :
  expand_dim n l = Ok l' →
  (length l = n ∧ l' = l) ∨ (∃ x, l = [x] ∧ l' = replicate n x).
Proof.
  unfold expand_dim. case_bool_decide as Hn.
  - intros [= <-]. by left.
  - destruct l as [|x [|??]]; intros [= <-]. right. by exists x.
Qed.

Lemma mapM_result_Ok_elem {A B} (f : A → result B) (l : list A) bs a :
  mapM_result f l = Ok bs → a ∈ l → ∃ b, f a = Ok b.
Proof.
  intros Hm [i Hi]%list_elem_of_lookup.
  destruct (mapM_result_lookup f l bs i a Hm Hi) as (b & _ & Hb). eauto.
Qed.

(** Every step of a pool build that returns. *)
Lemma rays_split_steps (M : tensor2 F) Hh W (smp : list (Sample F)) pool :
  rays_split M Hh W smp = Ok pool →
  let ts := map transform smp in
  ∃ rot rays org0 org cated,
    stack ts = Ok ts ∧
    slice3 (take 3) ts = Ok rot ∧
    matmul rot M = Ok rays ∧
    slice3 (drop 3) ts = Ok org0 ∧
    expand 3 (Hh * W) org0 = Ok org ∧
    cat1 org rays = Ok cated ∧
    reshape6 (permute102 cated) = Ok pool.
Proof.
  unfold rays_split. intros Hr.
  apply bind_Ok_inv in Hr as (ts' & Hts & Hr).
  pose proof (stack_Ok _ _ Hts) as [-> _].
  apply bind_Ok_inv in Hr as (rot & Hrot & Hr).
  apply bind_Ok_inv in Hr as (rays & Hrays & Hr).
  apply bind_Ok_inv in Hr as (org0 & Horg0 & Hr).
  apply bind_Ok_inv in Hr as (org & Horg & Hr).
  apply bind_Ok_inv in Hr as (cated & Hcat & Hr).
  by exists rot, rays, org0, org, cated.
Qed.

(** The shape of the first pose of a split whose pool is built. *)
Lemma rays_split_first_pose (M : tensor2 F) Hh W (s0 : Sample F) smp pool :
  length M = 3 →
  rays_split M Hh W (s0 :: smp) = Ok pool →
  ∃ r0 T0',
    transform s0 = r0 :: T0' ∧
    (length (transform s0) = 1 ∨ 3 ≤ length (transform s0)) ∧
    (length r0 = 4 ∨ length r0 = 3 + Hh * W).
Proof.
  intros HM (rot & rays & org0 & org & cated & _ & Hrot & Hmat & Horg0 & Horg & _)
    %rays_split_steps.
  simpl in Hrot, Horg0.
  destruct (transform s0) as [|r0 T0'] eqn:HT0; [done|].
  exists r0, T0'. split; [done|].
  injection Hrot as <-. injection Horg0 as <-.
  (* the inner dimension seen by matmul *)
  assert (3 ≤ length r0) as Hc.
  { unfold matmul in Hmat. case_bool_decide as Hn; [|done].
    simpl in Hn. rewrite length_take, HM in Hn. lia. }
  (* the two dimensions seen by expand *)
  unfold expand in Horg. simpl in Horg.
  apply bind_Ok_inv in Horg as (m' & Hm' & _).
  apply bind_Ok_inv in Hm' as (rows & Hrows & Hm').
  assert (drop 3 r0 ∈ rows ∧ (length T0' = 0 ∨ 2 ≤ length T0')) as [Hin Hr].
  { apply expand_dim_inv in Hrows as [[Hlen ->]|(x & Hx & ->)].
    - split; [by left|]. simpl in Hlen. rewrite length_map, length_take in Hlen. lia.
    - injection Hx as <- Hnil. split; [by left|].
      apply (f_equal length) in Hnil. rewrite length_map, length_take in Hnil.
      change (length (@nil (list F))) with 0 in Hnil. lia. }
  destruct (mapM_result_Ok_elem _ _ _ _ Hm' Hin) as (row' & Hrow').
  split; [simpl; lia|].
  apply expand_dim_inv in Hrow' as [[Hlen _]|(x & Hx & _)].
  - rewrite length_drop in Hlen. lia.
  - apply (f_equal length) in Hx. rewrite length_drop in Hx. simpl in Hx. lia.
Qed.

(** X7: In a constructed engine every split is non-empty and all its
    poses have one shape r x c with r = 1 or r >= 3, and c = 4 or
    c = 3 + H*W: no other shape passes [stack], [matmul] and [expand]
    (a 2 x 4 or a 4 x 3 pose is refused). *)
Theorem X7_pose_shapes_of_built_split (ds : Dataset F) (eng : RayGenerator F)
    (k : string) (smp : list (Sample F)) :
  RayGenerator_init ds = Ok eng → k ∈ keys →
  self_samples eng !! k = Some smp →
  smp ≠ [] ∧
  ∃ r c,
    (r = 1 ∨ 3 ≤ r) ∧
    (c = 4 ∨ c = 3 + self_H eng * self_W eng) ∧
    ∀ s, s ∈ smp →
      length (transform s) = r ∧ Forall (λ row, length row = c) (transform s).
Proof.
  intros Hinit Hk Hsmp.
  destruct (init_split ds eng k Hinit Hk) as (smp' & pool & Hsmp' & _ & _ & Hsplit).
  pose proof (eq_trans (eq_sym Hsmp) Hsmp') as Heq. injection Heq as <-.
  assert (self_H eng = cam_H (self_cam_params eng) ∧
          self_W eng = cam_W (self_cam_params eng)) as [-> ->].
  { by apply init_Ok in Hinit as (?&?&?&?&?&?&?&_&_&_&_&_&_&_&_&->). }
  destruct smp as [|s0 smp0] eqn:Hsmp0; [by rewrite rays_split_nil in Hsplit|].
  split; [done|].
  destruct (rays_split_first_pose _ _ _ _ _ _ (rays_single_cam_length _) Hsplit)
    as (r0 & T0' & HT0 & Hr & Hc).
  pose proof (rays_split_steps _ _ _ _ _ Hsplit) as (_ & _ & _ & _ & _ & Hstack & _).
  exists (length (transform s0)), (length r0).
  split; [done|]. split; [done|]. intros s Hs.
  assert (shape2 (transform s) = shape2 (transform s0)) as Hshape.
  { apply (stack_same_shape _ _ _ _ Hstack); apply list_elem_of_fmap_2;
      [done|by left]. }
  rewrite HT0 in Hshape. destruct (transform s) as [|r T'] eqn:HT; [done|].
  simpl in Hshape. injection Hshape as Hlen Hrow. split.
  - rewrite HT0. simpl. lia.
  - rewrite <- Hrow, <- HT.
    apply (init_rectangular ds eng k (s0 :: smp0) s r Hinit Hk Hsmp Hs).
    by rewrite HT.
Qed.

(** *** Success of the pool build and of construction *)











(** *** Images are not compared *)

Lemma same_decodable_lookup (l1 l2 : list (option Mat)) i m1 :
  same_decodable l1 l2 → l1 !! i = Some (Some m1) →
  ∃ m2, l2 !! i = Some (Some m2).
Proof.
  intros Hsame Hi. destruct (Forall2_lookup_l _ _ _ _ _ Hsame Hi) as (b & Hb & Hiff).
  destruct (proj1 Hiff ltac:(by eexists)) as [m2 ->]. eauto.
Qed.

Lemma mapM_result_transfer {A B} (f g : A → result B) (R : B → B → Prop)
    (l : list A) (bs : list B) :
  (∀ a b, a ∈ l → f a = Ok b → ∃ b', g a = Ok b' ∧ R b b') →
  mapM_result f l = Ok bs →
  ∃ bs', mapM_result g l = Ok bs' ∧ Forall2 R bs bs'.
Proof.
  revert bs. induction l as [|a l IH]; intros bs Hfg Hm; simpl in Hm.
  - injection Hm as <-. exists []. by split; [|constructor].
  - apply bind_Ok_inv in Hm as (b & Hb & Hm).
    apply bind_Ok_inv in Hm as (bs0 & Hbs0 & Hm). injection Hm as <-.
    destruct (Hfg a b ltac:(left) Hb) as (b' & Hb' & HR).
    destruct (IH bs0) as (bs' & Hbs' & HRs); [|done|].
    { intros a' b0 Ha'. apply Hfg. by right. }
    exists (b' :: bs'). simpl. rewrite Hb', Hbs'. by split; [|constructor].
Qed.

Lemma load_sample_transfer files1 files2 (tr : Transforms F) i s1 :
  same_decodable files1 files2 →
  load_sample files1 tr i = Ok s1 →
  ∃ s2, load_sample files2 tr i = Ok s2 ∧ transform s1 = transform s2.
Proof.
  intros Hsame (m & fr & Hm & Hfr & _ & _ & _ & _ & Hrect & HT)%load_sample_Ok.
  destruct (same_decodable_lookup _ _ _ _ Hsame Hm) as [m2 Hm2].
  unfold load_sample, getitem, from_numpy_float.
  rewrite Hm2, Hfr. simpl. rewrite Hrect. eexists. split; [done|]. by rewrite HT.
Qed.

Lemma load_test_sample_transfer (ds1 ds2 : Dataset F) i s1 :
  differ_in_images_only ds1 ds2 →
  load_test_sample ds1 i = Ok s1 →
  ∃ s2, load_test_sample ds2 i = Ok s2 ∧ transform s1 = transform s2.
Proof.
  intros (_ & Htt & _ & _ & _ & Hi & Hd & Hn & _)
    (m & md & mn & dp & nm & fr & Hm & Hmd & Hmn & Hfr & _ & _ & _ & _ & _ & _ &
     Hrect & HT)%load_test_sample_Ok.
  destruct (same_decodable_lookup _ _ _ _ Hi Hm) as [m2 Hm2].
  destruct (same_decodable_lookup _ _ _ _ Hd Hmd) as [md2 Hmd2].
  destruct (same_decodable_lookup _ _ _ _ Hn Hmn) as [mn2 Hmn2].
  unfold load_test_sample, getitem, from_numpy_float.
  rewrite Hm2, Hmd2, Hmn2, <- Htt, Hfr. simpl. rewrite Hrect.
  eexists. split; [done|]. by rewrite HT.
Qed.

Lemma Forall2_transform (smp1 smp2 : list (Sample F)) :
  Forall2 (λ s1 s2, transform s1 = transform s2) smp1 smp2 →
  map transform smp1 = map transform smp2.
Proof. induction 1 as [|s1 s2 ? ? Hs _ IH]; [done|]. simpl. by rewrite Hs, IH. Qed.

Lemma rays_split_transforms (M : tensor2 F) Hh W (smp1 smp2 : list (Sample F)) :
  map transform smp1 = map transform smp2 →
  rays_split M Hh W smp1 = rays_split M Hh W smp2.
Proof. intros Heq. unfold rays_split. by rewrite Heq. Qed.

(** X13: Construction never compares images: replacing the images of a
    dataset by others that decode at the same paths, of any content and
    any size as long as the last test image keeps its shape, leaves
    construction successful with the same intrinsics and the same three
    pools. *)
Theorem X13_images_not_compared (ds1 ds2 : Dataset F) (eng1 : RayGenerator F) :
  differ_in_images_only ds1 ds2 →
  RayGenerator_init ds1 = Ok eng1 →
  ∃ eng2,
    RayGenerator_init ds2 = Ok eng2 ∧
    self_cam_params eng2 = self_cam_params eng1 ∧
    self_rays_dataset eng2 = self_rays_dataset eng1.
Proof.
  intros Hdiff Hinit.
  pose proof Hdiff as (Htr & Hte & Hva & Ftr & Fva & Fte & _ & _ & Hlast).
  pose proof Hinit as (tr & te & va & s & p1 & p2 & p3 & Mtr & Mva & Mte & Hs &
                       Hload & Hp1 & Hp2 & Hp3 & ->)%init_Ok.
  cbv zeta in *.
  set (cp := intrinsics (img s) (camera_angle_x (train_transform ds1))) in *.
  (* the three comprehensions on the second dataset *)
  destruct (mapM_result_transfer _
              (load_sample (train_img_paths ds2) (train_transform ds2))
              (λ s1 s2, transform s1 = transform s2) _ _
              ltac:(intros a b _ Hb; rewrite <- Htr;
                    exact (load_sample_transfer _ _ _ _ _ Ftr Hb)) Mtr)
    as (tr2 & Mtr2 & Rtr).
  destruct (mapM_result_transfer _
              (load_sample (val_img_paths ds2) (val_transform ds2))
              (λ s1 s2, transform s1 = transform s2) _ _
              ltac:(intros a b _ Hb; rewrite <- Hva;
                    exact (load_sample_transfer _ _ _ _ _ Fva Hb)) Mva)
    as (va2 & Mva2 & Rva).
  destruct (mapM_result_transfer _ (load_test_sample ds2)
              (λ s1 s2, transform s1 = transform s2) _ _
              ltac:(intros a b _ Hb;
                    exact (load_test_sample_transfer _ _ _ _ Hdiff Hb)) Mte)
    as (te2 & Mte2 & Rte).
  rewrite (Forall2_length _ _ _ Ftr) in Mtr2.
  rewrite (Forall2_length _ _ _ Fva) in Mva2.
  rewrite (Forall2_length _ _ _ Fte) in Mte2.
  destruct (last te2) as [s2|] eqn:Hs2.
  2:{ apply last_None in Hs2. subst te2. apply Forall2_nil_inv_r in Rte.
      by subst te. }
  (* [load_data] on the second dataset, with the same intrinsics *)
  assert (load_data ds2
          = Ok (samples_dict tr2 te2 va2,
                intrinsics (img s2) (camera_angle_x (train_transform ds2)))) as Hload2.
  { rewrite load_data_eq, Mtr2, Mva2, Mte2. simpl. by rewrite Hs2. }
  assert (intrinsics (img s2) (camera_angle_x (train_transform ds2)) = cp) as Hcp.
  { destruct (load_data_Ok _ _ _ Hload) as (m1 & Hm1 & ->).
    destruct (load_data_Ok _ _ _ Hload2) as (m2 & Hm2 & ->).
    destruct (Hlast m1 m2 Hm1 Hm2) as [-> ->]. by rewrite Htr. }
  rewrite Hcp in Hload2.
  eexists. split.
  - unfold RayGenerator_init. rewrite Hload2. simpl. rewrite rays_dataset_eq.
    rewrite <- (rays_split_transforms _ _ _ tr tr2) by (by apply Forall2_transform).
    rewrite <- (rays_split_transforms _ _ _ te te2) by (by apply Forall2_transform).
    rewrite <- (rays_split_transforms _ _ _ va va2) by (by apply Forall2_transform).
    rewrite Hp1, Hp2, Hp3. simpl. reflexivity.
  - done.
Qed.

End Building.

(** * Further properties of sampling *)

Section Batches.

Context {F : Type} `{FloatOps F}.
Context {G : Type} `{RandomGen G}.
Context `{Allocator}.

(** X12: On a constructed engine and a split of well-formed poses,
    whenever [select] returns a batch, every returned id names an image
    and a pixel: with b = id div (H*W) and p = id mod (H*W), image b
    exists and row i of the batch is the translation of image b's pose
    followed by its rotation applied to column p of the basis. *)
Theorem X12_sampled_ray (ds : Dataset F) (eng : RayGenerator F) (k : string)
    (smp : list (Sample F)) (N : Z) (g : G)
    (rays : tensor2 F) (ids : list Z) (w' : World F G) :
  RayGenerator_init ds = Ok eng →
  k ∈ keys →
  self_samples eng !! k = Some smp →
  Forall (λ s, pose_ok (transform s)) smp →
  select {| engine := eng; gen := g |} k N = (Ok (rays, ids), w') →
  let cp := self_cam_params eng in
  let HW := cam_H cp * cam_W cp in
  ∀ i id, ids !! i = Some id →
    ∃ s,
      smp !! (Z.to_nat id / HW) = Some s ∧
      rays !! i
      = Some (translation (transform s)
              ++ matvec (rotation (transform s))
                        (column (Z.to_nat id mod HW) (rays_single_cam cp))).
Proof.
  intros Hinit Hk Hsmp Hposes Hsel cp HW i id Hi.
  destruct (init_split ds eng k Hinit Hk) as (smp' & pool & Hsmp' & Hpool & _ & Hsplit).
  pose proof (eq_trans (eq_sym Hsmp) Hsmp') as Heq. injection Heq as <-.
  destruct (rays_split_shape _ _ _ _ _ Hsplit) as (H6 & Hsame & _).
  destruct (select_Ok_inv eng g k N pool rays ids w' Hpool Hsame Hsel)
    as [Hrange ->].
  destruct (rays_split_layout _ _ _ _ _ (rays_single_cam_length cp)
              (rays_single_cam_rows cp) Hposes Hsplit) as (_ & Hrows & Hcol).
  fold cp HW in Hrows, Hcol.
  assert (ncols pool = length smp * HW) as Hwidth.
  { destruct pool as [|r0 pool0]; [done|]. by apply Forall_cons in Hrows as [Hr0 _]. }
  assert (0 ≤ id < Z.of_nat (ncols pool))%Z as Hid.
  { rewrite Forall_forall in Hrange. apply Hrange. by eapply list_elem_of_lookup_2. }
  assert (0 < HW) as HHW by (rewrite Hwidth in Hid; nia).
  set (c := Z.to_nat id).
  assert (c < length smp * HW) as Hc by (unfold c; lia).
  assert (c / HW < length smp) as Hb.
  { apply Nat.Div0.div_lt_upper_bound. lia. }
  assert (c mod HW < HW) as Hp by (apply Nat.mod_upper_bound; lia).
  destruct (lookup_lt_is_Some_2 smp (c / HW) Hb) as [s Hs].
  exists s. split; [done|].
  rewrite <- (Hcol (c / HW) s (c mod HW) Hs Hp).
  replace (c / HW * HW + c mod HW) with c
    by (rewrite (Nat.div_mod_eq c HW) at 1; lia).
  by apply (map_lookup_Some (λ id, column (Z.to_nat id) pool)).
Qed.

End Batches.

(** * The theorems at the demo dataset *)

Section Witnesses.

Import Demo.

Example basis_221 :
  rays_single_cam cam221
  = [ [q (-1); q 0; q (-1); q 0];
      [q 1; q 1; q 0; q 0];
      [q (-1); q (-1); q (-1); q (-1)] ].
Proof. reflexivity. Qed.

Example pool_221 :
  rays_split (rays_single_cam cam221) 2 2 [identity_sample]
  = Ok ([ [q 0; q 0; q 0; q 0];
          [q 0; q 0; q 0; q 0];
          [q 0; q 0; q 0; q 0] ] ++ rays_single_cam cam221).
Proof. reflexivity. Qed.

Lemma demo_init : RayGenerator_init demo_ds = Ok demo_eng.
Proof. vm_compute. reflexivity. Defined.

Lemma train_key : "train" ∈ keys.
Proof. apply list_elem_of_here. Defined.

Lemma val_key : "val" ∈ keys.
Proof. do 2 apply list_elem_of_further. apply list_elem_of_here. Defined.

Lemma depth_no_key : "depth" ∉ keys.
Proof.
  intros Hin. unfold keys in Hin.
  repeat (apply elem_of_cons in Hin as [Hin|Hin]; [discriminate Hin|]).
  by apply elem_of_nil in Hin.
Defined.

Lemma fits_9 : within_limits 9.
Proof. unfold within_limits. vm_compute. intros Hgt. discriminate Hgt. Defined.

Lemma fits_5 : within_limits 5.
Proof. unfold within_limits. vm_compute. intros Hgt. discriminate Hgt. Defined.

Lemma demo_train_poses : Forall (λ s : Sample Q, pose_ok (transform s)) demo_train.
Proof. repeat first [apply Forall_nil_2 | apply Forall_cons_2 | split]; simpl; lia. Defined.

Lemma C1_pool_layout_witness :
  let cp := self_cam_params demo_eng in
  let B := length demo_train in
  let HW := cam_H cp * cam_W cp in
  ∃ pool,
    self_rays_dataset demo_eng !! "train" = Some pool ∧
    B = length (split_paths demo_ds "train") ∧
    length pool = 6 ∧
    Forall (λ row, length row = B * HW) pool ∧
    ∀ b s p, demo_train !! b = Some s → p < HW →
      take 3 (column (b * HW + p) pool) = translation (transform s) ∧
      drop 3 (column (b * HW + p) pool)
      = matvec (rotation (transform s)) (column p (rays_single_cam cp)).
Proof.
  apply (C1_pool_layout demo_ds demo_eng "train" demo_train).
  - exact demo_init.
  - exact train_key.
  - vm_compute. reflexivity.
  - exact demo_train_poses.
Defined.

Lemma C2_select_rows_witness :
  ∃ pool rays ids g',
    self_rays_dataset demo_eng !! "train" = Some pool ∧
    select {| engine := demo_eng; gen := 42%Z |} "train" 5
    = (Ok (rays, ids), {| engine := demo_eng; gen := g' |}) ∧
    length rays = Z.to_nat 5 ∧
    length ids = Z.to_nat 5 ∧
    Forall (λ id, (0 ≤ id < Z.of_nat (ncols pool))%Z) ids ∧
    Forall (λ row, length row = 6) rays ∧
    ∀ i id, ids !! i = Some id → rays !! i = Some (column (Z.to_nat id) pool).
Proof.
  apply (C2_select_rows demo_ds demo_eng "train" 5 42%Z).
  - exact demo_init.
  - vm_compute. lia.
  - vm_compute. lia.
  - exact train_key.
  - lia.
  - exact fits_5.
Defined.

Lemma C3_fewer_poses_fail_extra_ignored_witness :
  is_Raise (load_data ds_short) ∧ is_Raise (RayGenerator_init ds_short).
Proof.
  apply (proj1 (C3_fewer_poses_fail_extra_ignored ds_short) "train").
  - exact train_key.
  - vm_compute. lia.
Defined.

Lemma C3_more_poses_counterexample :
  length (frames (split_transform ds_more "train")) = 3 ∧
  length (split_paths ds_more "train") = 2 ∧
  ¬ is_Raise (RayGenerator_init ds_more) ∧
  ∃ eng pool,
    RayGenerator_init ds_more = Ok eng ∧
    self_rays_dataset eng !! "train" = Some pool ∧
    ncols pool = 2 * (2 * 2).
Proof.
  assert (RayGenerator_init ds_more = Ok demo_eng) as Hinit
    by (vm_compute; reflexivity).
  split; [reflexivity|]. split; [reflexivity|]. split.
  - intros [e He]. rewrite Hinit in He. discriminate He.
  - exists demo_eng. eexists. split; [exact Hinit|].
    split; vm_compute; reflexivity.
Qed.

Lemma C4_invalid_split_witness :
  select {| engine := demo_eng; gen := 42%Z |} "depth" 5
  = (Raise KeyError, {| engine := demo_eng; gen := 42%Z |}).
Proof.
  apply (C4_invalid_split demo_ds demo_eng "depth" 5 42%Z).
  - exact demo_init.
  - exact depth_no_key.
Defined.

Lemma C5_no_bound_by_pool_width_witness :
  ∃ pool rays ids w',
    self_rays_dataset demo_eng !! "val" = Some pool ∧
    select {| engine := demo_eng; gen := 7%Z |} "val" 9 = (Ok (rays, ids), w') ∧
    length ids = Z.to_nat 9 ∧
    ((Z.of_nat (ncols pool) < 9)%Z → ¬ NoDup ids).
Proof.
  apply (C5_no_bound_by_pool_width demo_ds demo_eng "val" 9 7%Z).
  - exact demo_init.
  - vm_compute. lia.
  - vm_compute. lia.
  - exact val_key.
  - lia.
  - exact fits_9.
Defined.

Lemma C5_storage_overflow_counterexample :
  RayGenerator_init demo_ds = Ok demo_eng ∧
  "train" ∈ keys ∧
  (0 < 2 ^ 62)%Z ∧
  select {| engine := demo_eng; gen := 42%Z |} "train" (2 ^ 62)
  = (Raise RuntimeError, {| engine := demo_eng; gen := 42%Z |}).
Proof.
  split; [exact demo_init|]. split; [exact train_key|]. split; [lia|].
  vm_compute. reflexivity.
Qed.

Lemma C6_shared_intrinsics_witness :
  ∃ m,
    last (test_img_paths demo_ds) = Some (Some m) ∧
    let fov := camera_angle_x (train_transform demo_ds) in
    let cp := {| cam_H := mat_rows m;
                 cam_W := mat_cols m;
                 cam_f := fdiv (of_int (Z.of_nat (mat_cols m)))
                               (fmul (of_int 2) (ftan (fdiv fov (of_int 2)))) |} in
    self_cam_params demo_eng = cp ∧
    (self_H demo_eng, self_W demo_eng, self_f demo_eng) = (cam_H cp, cam_W cp, cam_f cp) ∧
    ∀ k, k ∈ keys →
      ∃ smp pool,
        self_samples demo_eng !! k = Some smp ∧
        self_rays_dataset demo_eng !! k = Some pool ∧
        rays_split (rays_single_cam cp) (cam_H cp) (cam_W cp) smp = Ok pool.
Proof. apply (C6_shared_intrinsics demo_ds demo_eng). exact demo_init. Defined.

Lemma C8_select_zero_witness :
  select {| engine := demo_eng; gen := 42%Z |} "train" 0
  = (Ok ([], []), {| engine := demo_eng; gen := 42%Z |}).
Proof.
  apply (C8_select_zero demo_ds demo_eng "train" 42%Z).
  - exact demo_init.
  - vm_compute. lia.
  - vm_compute. lia.
  - exact train_key.
Defined.

Lemma C9_test_split_required_witness :
  is_Raise (load_data ds_no_test) ∧ is_Raise (RayGenerator_init ds_no_test).
Proof. apply (proj1 (C9_test_split_required ds_no_test)). reflexivity. Defined.

Lemma C10_select_negative_witness :
  select {| engine := demo_eng; gen := 42%Z |} "train" (-3)
  = (Raise RuntimeError, {| engine := demo_eng; gen := 42%Z |}).
Proof.
  apply (C10_select_negative demo_ds demo_eng "train" (-3) 42%Z).
  - exact demo_init.
  - exact train_key.
  - lia.
Defined.

Lemma demo_load :
  load_data demo_ds = Ok (self_samples demo_eng, self_cam_params demo_eng).
Proof. vm_compute. reflexivity. Defined.

Lemma X1_load_data_alignment_witness :
  ∃ smp,
    self_samples demo_eng !! "train" = Some smp ∧
    length smp = length (split_paths demo_ds "train") ∧
    ∀ i s, smp !! i = Some s →
      ∃ m fr,
        split_paths demo_ds "train" !! i = Some (Some m) ∧
        frames (split_transform demo_ds "train") !! i = Some fr ∧
        imread_rgb (Some m) = Ok (img s) ∧
        metadata s = fr ∧
        transform s = map (map f32) (transform_matrix fr).
Proof.
  apply (X1_load_data_alignment demo_ds _ (self_cam_params demo_eng) "train").
  - exact demo_load.
  - exact train_key.
Defined.

Lemma X2_undecodable_image_witness : is_Raise (load_data ds_bad_file).
Proof.
  apply (X2_undecodable_image ds_bad_file "train" 1).
  - exact train_key.
  - reflexivity.
Defined.

Lemma X3_test_needs_depth_and_normal_witness : is_Raise (load_data ds_no_depth).
Proof.
  apply (X3_test_needs_depth_and_normal ds_no_depth 0).
  - simpl. lia.
  - left. intros m Hm. discriminate Hm.
Defined.

Lemma X4_ragged_transform_witness : is_Raise (load_data ds_ragged).
Proof.
  apply (X4_ragged_transform ds_ragged "val" 0 ragged_frame).
  - exact val_key.
  - simpl. lia.
  - reflexivity.
  - reflexivity.
Defined.

Lemma X5_empty_train_or_val_witness : is_Raise (RayGenerator_init ds_no_val).
Proof. apply (X5_empty_train_or_val ds_no_val). right. reflexivity. Defined.

Lemma X6_mixed_pose_shapes_witness :
  rays_split (rays_single_cam cam221) 2 2 [identity_sample; sample_c]
  = Raise RuntimeError.
Proof.
  apply (X6_mixed_pose_shapes _ 2 2 _ identity_sample sample_c).
  - apply list_elem_of_here.
  - apply list_elem_of_further, list_elem_of_here.
  - intros Heq. discriminate Heq.
Defined.

Lemma demo_train_lookup : self_samples demo_eng !! "train" = Some demo_train.
Proof. vm_compute. reflexivity. Defined.

Lemma X7_pose_shapes_of_built_split_witness :
  demo_train ≠ [] ∧
  ∃ r c,
    (r = 1 ∨ 3 ≤ r) ∧
    (c = 4 ∨ c = 3 + self_H demo_eng * self_W demo_eng) ∧
    ∀ s, s ∈ demo_train →
      length (transform s) = r ∧ Forall (λ row, length row = c) (transform s).
Proof.
  apply (X7_pose_shapes_of_built_split demo_ds demo_eng "train" demo_train).
  - exact demo_init.
  - exact train_key.
  - exact demo_train_lookup.
Defined.




Lemma X10_engine_dicts_witness :
  (is_Some (self_samples demo_eng !! "val") ↔ "val" ∈ keys) ∧
  (is_Some (self_rays_dataset demo_eng !! "val") ↔ "val" ∈ keys) ∧
  ∀ pool, self_rays_dataset demo_eng !! "val" = Some pool →
    length pool = 6 ∧ Forall (λ row, length row = ncols pool) pool.
Proof. apply (X10_engine_dicts demo_ds demo_eng "val"). exact demo_init. Defined.

Lemma X12_sampled_ray_witness :
  let cp := self_cam_params demo_eng in
  let HW := cam_H cp * cam_W cp in
  ∃ rays ids w',
    select {| engine := demo_eng; gen := 42%Z |} "train" 5 = (Ok (rays, ids), w') ∧
    ∀ i id, ids !! i = Some id →
      ∃ s,
        demo_train !! (Z.to_nat id / HW) = Some s ∧
        rays !! i
        = Some (translation (transform s)
                ++ matvec (rotation (transform s))
                          (column (Z.to_nat id mod HW) (rays_single_cam cp))).
Proof.
  intros cp HW.
  assert (∃ rays ids w',
            select {| engine := demo_eng; gen := 42%Z |} "train" 5
            = (Ok (rays, ids), w')) as (rays & ids & w' & Hsel).
  { eexists _, _, _. vm_compute. reflexivity. }
  exists rays, ids, w'. split; [exact Hsel|].
  apply (X12_sampled_ray demo_ds demo_eng "train" demo_train 5 42%Z rays ids w').
  - exact demo_init.
  - exact train_key.
  - exact demo_train_lookup.
  - exact demo_train_poses.
  - exact Hsel.
Defined.

Lemma demo_other_images : differ_in_images_only demo_ds ds_other_images.
Proof.
  unfold differ_in_images_only, same_decodable.
  split; [reflexivity|]. split; [reflexivity|]. split; [reflexivity|].
  do 5 (split; [repeat constructor; intros _; by eexists|]).
  intros m1 m2 Hm1 Hm2. injection Hm1 as <-. injection Hm2 as <-.
  split; reflexivity.
Defined.

Lemma X13_images_not_compared_witness :
  ∃ eng2,
    RayGenerator_init ds_other_images = Ok eng2 ∧
    self_cam_params eng2 = self_cam_params demo_eng ∧
    self_rays_dataset eng2 = self_rays_dataset demo_eng.
Proof.
  apply (X13_images_not_compared demo_ds ds_other_images demo_eng).
  - exact demo_other_images.
  - exact demo_init.
Defined.

End Witnesses.
